(** * webmux: the routing tree, registration, lookup and dispatch

    A shallow embedding of [path.go], the method set, [mux.go] and the
    default error handler of the webmux request multiplexer, followed by
    the properties proved about them.

    Go strings are byte strings, modelled as [string] (a list of 8-bit
    [ascii]).  Go maps are finite maps ([gmap]); a nil map and an empty map
    answer every lookup alike and are not distinguished.  The routing tree is
    a pointer structure that registration mutates in place; it is modelled as
    a functional tree that registration rebuilds along the registered path.
    A Go panic is the [Panic] outcome. *)

From stdpp Require Import gmap strings list fin_maps pretty.
From Stdlib Require Import ZArith Lia Ascii.

#[local] Set Warnings "-register-all".
#[local] Open Scope string_scope.
#[local] Open Scope list_scope.

(** ** Outcomes: a returned value, a panic, or a loop model out of fuel *)

Inductive outcome (A : Type) : Type :=
| Ret (a : A)
| Panic (msg : string)
| OutOfFuel.

Arguments Ret {A} a.
Arguments Panic {A} msg.
Arguments OutOfFuel {A}.

#[global] Instance outcome_ret : MRet outcome := @Ret.

#[global] Instance outcome_bind : MBind outcome := fun A B k m =>
  match m with
  | Ret a => k a
  | Panic msg => Panic msg
  | OutOfFuel => OutOfFuel
  end.

(** ** Go string primitives used by [path.go] *)

(** [strings.IndexByte]: index of the first [c] in [s], or -1. *)
Fixpoint IndexByte (s : string) (c : ascii) : Z :=
  match s with
  | "" => -1
  | String b s' =>
      if Ascii.eqb b c then 0
      else let i := IndexByte s' c in
           if (i <? 0)%Z then (-1)%Z else (i + 1)%Z
  end.

(** [s[n:]] *)
Fixpoint sliceFrom (s : string) (n : nat) : string :=
  match n, s with
  | O, _ => s
  | S n', String _ s' => sliceFrom s' n'
  | S _, "" => ""
  end.

(** [s[:n]] *)
Fixpoint sliceTo (s : string) (n : nat) : string :=
  match n, s with
  | O, _ => ""
  | S n', String b s' => String b (sliceTo s' n')
  | S _, "" => ""
  end.

(** [s[lo:hi]] *)
Definition slice (s : string) (lo hi : nat) : string :=
  sliceTo (sliceFrom s lo) (hi - lo).

(** ** path.go *)

(** [shiftPath]: the slice [p[1:]] of an empty string panics in Go; both
    callers guard the call with [path != ""]. *)
Definition shiftPath (p : string) : outcome (string * string) :=
  match p with
  | "" => Panic "slice bounds out of range"
  | String _ _ =>
      let i := (IndexByte (sliceFrom p 1) "/" + 1)%Z in
      if (i <=? 0)%Z then Ret (sliceFrom p 1, "")
      else Ret (slice p 1 (Z.to_nat i), sliceFrom p (Z.to_nat i))
  end.

Definition cleanPath (p : string) : string :=
  match p with
  | "" => "/"
  | String b _ => if Ascii.eqb b "/" then p else "/" +:+ p
  end.

(** ** The method set *)

Definition MethodSet : Type := list string.

Definition MethodGet : string := "GET".
Definition MethodHead : string := "HEAD".
Definition MethodOptions : string := "OPTIONS".

(** The common methods of RFC 7231 section 4.3 and RFC 5789. *)
Definition commonMethods : list string :=
  ["GET"; "HEAD"; "POST"; "PUT"; "PATCH"; "DELETE"; "CONNECT"; "OPTIONS"; "TRACE"].

(** [AnyMethod] *)
Definition AnyMethod : MethodSet := commonMethods.

(** [slices.Contains] *)
Definition Contains (s : list string) (m : string) : bool :=
  existsb (String.eqb m) s.

(** [Methods(methods...)]: duplicates are dropped, order is kept. *)
Definition Methods (methods : list string) : MethodSet :=
  fold_left (fun s m => if Contains s m then s else s ++ [m]) methods [].

(** [strings.Join] *)
Fixpoint Join (elems : list string) (sep : string) : string :=
  match elems with
  | [] => ""
  | [e] => e
  | e :: rest => e +:+ sep +:+ Join rest sep
  end.

Module MethodSet.
Definition Add (m : MethodSet) (method : string) : MethodSet :=
  if Contains m method then m else m ++ [method].

Definition Has (m : MethodSet) (method : string) : bool :=
  Contains m method.

Definition String (m : MethodSet) : string := Join m ", ".
End MethodSet.

(** ** mux.go: entries, tree nodes, matches *)

Section Mux.
(** The handlers are opaque to the multiplexer. *)
Context {Handler : Type}.

(** [muxEntry]: a leaf of the routing tree, mapping methods to handlers. *)
Record muxEntry : Type := MuxEntry {
  pattern : string;                (* raw URL pattern *)
  params : list string;            (* param names, in pattern order *)
  handlers : gmap string Handler;  (* method to handler *)
  methods : MethodSet              (* cache of the allowed methods *)
}.

(** [node]: one node of the routing tree. *)
Inductive node : Type := Node {
  entry : option muxEntry;
  children : gmap string node      (* path segment to child node *)
}.

(** [&node{}] *)
Definition emptyNode : node := Node None ∅.

(** [MuxMatch]: the embedded [*muxEntry] may be nil. *)
Record MuxMatch : Type := {
  matchEntry : option muxEntry;
  values : list string
}.

(** [Reset] *)
Definition Reset (m : MuxMatch) : MuxMatch :=
  {| matchEntry := None; values := [] |}.

Definition Pattern (m : MuxMatch) : string :=
  match matchEntry m with
  | None => ""
  | Some e => pattern e
  end.

Definition Params (m : MuxMatch) : list string :=
  match matchEntry m with
  | None => []
  | Some e => params e
  end.

(** The scan of [Param]: [m.values[i]] panics when [i] is out of range. *)
Fixpoint paramScan (ks : list string) (i : nat) (name : string)
    (vs : list string) : outcome string :=
  match ks with
  | [] => Ret ""
  | k :: ks' =>
      if String.eqb k name then
        match vs !! i with
        | Some v => Ret v
        | None => Panic "index out of range"
        end
      else paramScan ks' (S i) name vs
  end.

Definition Param (m : MuxMatch) (name : string) : outcome string :=
  match matchEntry m with
  | None => Ret ""
  | Some e => paramScan (params e) 0 name (values m)
  end.

(** [MuxMatch.Methods] *)
Definition MatchMethods (m : MuxMatch) : MethodSet :=
  match matchEntry m with
  | None => []
  | Some e => methods e
  end.

(** [MuxMatch.Handler]: nil is [None]. *)
Definition MatchHandler (m : MuxMatch) (method : string) : option Handler :=
  match matchEntry m with
  | None => None
  | Some e => handlers e !! method
  end.

(** *** Requests, responses and errors

    Of a request the multiplexer reads the method, the URL path and the
    [muxKey] slot of its context; of a response writer it uses the header
    map, [WriteHeader] and the body. *)

Record Request : Type := {
  Method : string;
  URLPath : string;
  ctxMatch : option MuxMatch       (* [FromContext(r.Context())] *)
}.

(** [NewContext] followed by [r.WithContext] *)
Definition WithMatch (r : Request) (m : MuxMatch) : Request :=
  {| Method := Method r; URLPath := URLPath r; ctxMatch := Some m |}.

Record ResponseWriter : Type := {
  header : list (string * string);
  status : option Z;
  body : string
}.

Inductive error : Type :=
| ErrMuxNotFound
| HandlerError (msg : string).

Definition HeaderAdd (w : ResponseWriter) (k v : string) : ResponseWriter :=
  {| header := header w ++ [(k, v)]; status := status w; body := body w |}.

Definition HeaderSet (w : ResponseWriter) (k v : string) : ResponseWriter :=
  {| header := filter (fun kv => kv.1 ≠ k) (header w) ++ [(k, v)];
     status := status w; body := body w |}.

(** Only the first [WriteHeader] takes effect. *)
Definition WriteHeader (w : ResponseWriter) (code : Z) : ResponseWriter :=
  match status w with
  | Some _ => w
  | None => {| header := header w; status := Some code; body := body w |}
  end.

Definition StatusNoContent : Z := 204.
Definition StatusNotFound : Z := 404.
Definition StatusMethodNotAllowed : Z := 405.
Definition StatusInternalServerError : Z := 500.

Definition StatusText (code : Z) : string :=
  if (code =? 204)%Z then "No Content"
  else if (code =? 404)%Z then "Not Found"
  else if (code =? 405)%Z then "Method Not Allowed"
  else if (code =? 500)%Z then "Internal Server Error"
  else "".

(** [http.Error] of the standard library, by its documented effect. *)
Definition httpError (w : ResponseWriter) (text : string) (code : Z)
  : ResponseWriter :=
  let w := HeaderSet w "Content-Type" "text/plain; charset=utf-8" in
  let w := HeaderSet w "X-Content-Type-Options" "nosniff" in
  let w := WriteHeader w code in
  {| header := header w; status := status w;
     body := body w +:+ text +:+ String "010" "" |}.

Definition writeError (w : ResponseWriter) (code : Z) : ResponseWriter :=
  httpError w (StatusText code) code.

(** [StatusErrorHandler.ErrorHTTP]; the log line is not modelled. *)
Definition ErrorHTTP (w : ResponseWriter) (r : Request) (err : error)
  : ResponseWriter :=
  match err with
  | ErrMuxNotFound =>
      match ctxMatch r with
      | None => writeError w StatusNotFound
      | Some m =>
          let w := HeaderAdd w "Allow" (MethodSet.String (MatchMethods m)) in
          writeError w StatusMethodNotAllowed
      end
  | HandlerError _ => writeError w StatusInternalServerError
  end.

(** What running a handler does to the response, and the error it returns. *)
Context (serve : Handler -> ResponseWriter -> Request -> ResponseWriter * option error).

Record ServeMux : Type := {
  errHandler : ResponseWriter -> Request -> error -> ResponseWriter;
  root : node
}.

Definition NewMux : ServeMux := {| errHandler := ErrorHTTP; root := emptyNode |}.

(** [HandleError] *)
Definition HandleError (mux : ServeMux)
    (h : ResponseWriter -> Request -> error -> ResponseWriter) : ServeMux :=
  {| errHandler := h; root := root mux |}.

(** *** Registration *)

(** [setHandler]: panics when [method] already has a handler. *)
Definition setHandler (e : muxEntry) (method : string) (handler : Handler)
  : outcome muxEntry :=
  match handlers e !! method with
  | Some _ =>
      Panic ("web: multiple registrations for " +:+ method +:+ " " +:+ pattern e)
  | None =>
      let hs := <[method := handler]> (handlers e) in
      let ms := MethodSet.Add (methods e) method in
      let ms :=
        if String.eqb method MethodGet && negb (MethodSet.Has ms MethodHead)
        then MethodSet.Add ms MethodHead else ms in
      Ret (MuxEntry (pattern e) (params e) hs ms)
  end.

(** [for _, method := range methods { entry.setHandler(method, handler) }] *)
Fixpoint setHandlers (e : muxEntry) (ms : list string) (handler : Handler)
  : outcome muxEntry :=
  match ms with
  | [] => Ret e
  | method :: rest => e' ← setHandler e method handler; setHandlers e' rest handler
  end.

(** The placeholder test of the registration loop,
    [head != "" && (head[0] == ':' || head[0] == '*')], giving [head[1:]]. *)
Definition placeholder (head : string) : option string :=
  match head with
  | String c name =>
      if Ascii.eqb c ":" || Ascii.eqb c "*" then Some name else None
  | "" => None
  end.

(** The registration loop of [HandleMethods] together with what follows
    it.  [current] is the node the loop stands on; the result is that node
    after the in-place updates made at and below it. *)
Fixpoint handleLoop (fuel : nat) (ms : MethodSet) (pat : string)
    (handler : Handler) (path : string) (ps : list string) (current : node)
  : outcome node :=
  match path with
  | "" =>
      let e := match entry current with
               | Some e => e
               | None => MuxEntry pat ps ∅ (Methods [MethodOptions])
               end in
      e' ← setHandlers e ms handler;
      Ret (Node (Some e') (children current))
  | String _ _ =>
      match fuel with
      | O => OutOfFuel
      | S fuel' =>
          '(head, tail) ← shiftPath path;
          let '(ps, head) :=
            match placeholder head with
            | Some name => (ps ++ [name], "*")
            | None => (ps, head)
            end in
          let next := match children current !! head with
                      | Some n => n
                      | None => emptyNode
                      end in
          next' ← handleLoop fuel' ms pat handler tail ps next;
          Ret (Node (entry current) (<[head := next']> (children current)))
      end
  end.

(** [HandleMethods]; a nil handler is [None]. *)
Definition HandleMethods (mux : ServeMux) (ms : MethodSet) (pat : string)
    (handler : option Handler) : outcome ServeMux :=
  match ms with
  | [] => Panic "webmux: empty method set"
  | _ :: _ =>
      match pat with
      | "" => Panic "webmux: invalid pattern"
      | String _ _ =>
          match handler with
          | None => Panic "webmux: nil handler"
          | Some h =>
              let path := cleanPath pat in
              r ← handleLoop (String.length path) ms pat h path [] (root mux);
              Ret {| errHandler := errHandler mux; root := r |}
          end
      end
  end.

(** [Handle] *)
Definition Handle (mux : ServeMux) (method pat : string)
    (handler : option Handler) : outcome ServeMux :=
  HandleMethods mux (Methods [method]) pat handler.

(** *** Lookup *)

(** The loop of [lookup] and what follows it. *)
Fixpoint lookupLoop (fuel : nat) (path : string) (current : node)
    (e : option muxEntry) (vs : list string) : outcome (option MuxMatch) :=
  match path with
  | "" =>
      match e with
      | None => Ret None
      | Some e => Ret (Some {| matchEntry := Some e; values := vs |})
      end
  | String _ _ =>
      match fuel with
      | O => OutOfFuel
      | S fuel' =>
          '(head, tail) ← shiftPath path;
          let step :=
            match children current !! head with
            | Some next => Some (next, vs)
            | None =>
                match children current !! "*" with
                | Some next => Some (next, vs ++ [head])
                | None => None
                end
            end in
          match step with
          | None => Ret None
          | Some (next, vs) =>
              let e := match entry next with
                       | Some e' => Some e'
                       | None => e
                       end in
              lookupLoop fuel' tail next e vs
          end
      end
  end.

(** [lookup]: [urlPath] is [r.URL.Path]. *)
Definition lookup (mux : ServeMux) (urlPath : string) (m : MuxMatch)
  : outcome (option MuxMatch) :=
  let path := cleanPath urlPath in
  lookupLoop (String.length path) path (root mux) None (values m).

(** [Lookup] *)
Definition Lookup (mux : ServeMux) (urlPath : string) : outcome (option MuxMatch) :=
  lookup mux urlPath {| matchEntry := None; values := [] |}.

(** *** Dispatch *)

(** [ServeHTTPErr]; [pooled] is what [mux.pool.Get()] hands out, taken to be
    a non-nil match; putting it back into the pool is not modelled. *)
Definition ServeHTTPErr (mux : ServeMux) (pooled : MuxMatch)
    (w : ResponseWriter) (r : Request) : outcome (ResponseWriter * option error) :=
  om ← lookup mux (URLPath r) (Reset pooled);
  match om with
  | None => Ret (w, Some ErrMuxNotFound)
  | Some m =>
      let h := MatchHandler m (Method r) in
      let h := match h with
               | None => if String.eqb (Method r) MethodHead
                         then MatchHandler m MethodGet else None
               | Some _ => h
               end in
      match h with
      | None =>
          if String.eqb (Method r) MethodOptions then
            let w := HeaderAdd w "Allow" (MethodSet.String (MatchMethods m)) in
            Ret (WriteHeader w StatusNoContent, None)
          else Ret (w, Some ErrMuxNotFound)
      | Some h => Ret (serve h w (WithMatch r m))
      end
  end.

(** [ServeHTTP] *)
Definition ServeHTTP (mux : ServeMux) (pooled : MuxMatch)
    (w : ResponseWriter) (r : Request) : outcome ResponseWriter :=
  '(w', err) ← ServeHTTPErr mux pooled w r;
  match err with
  | None => Ret w'
  | Some err => Ret (errHandler mux w' r err)
  end.
End Mux.

Arguments muxEntry : clear implicits.
Arguments node : clear implicits.
Arguments ServeMux : clear implicits.
Arguments MuxMatch : clear implicits.
Arguments Request : clear implicits.

(** ** Segments, tree positions and the walk, as the specification words them *)

(** The text before the first ['/'] of [s]. *)
Fixpoint segHead (s : string) : string :=
  match s with
  | "" => ""
  | String b s' => if Ascii.eqb b "/" then "" else String b (segHead s')
  end.

(** The text of [s] from its first ['/'] on; empty when there is none. *)
Fixpoint segTail (s : string) : string :=
  match s with
  | "" => ""
  | String b s' => if Ascii.eqb b "/" then s else segTail s'
  end.

(** Splitting at every ['/']: no piece is dropped, an empty piece stays. *)
Fixpoint splitOn (s : string) : list string :=
  match s with
  | "" => [""]
  | String b s' =>
      if Ascii.eqb b "/" then "" :: splitOn s'
      else match splitOn s' with
           | h :: t => String b h :: t
           | [] => [String b ""]
           end
  end.

(** The segments a loop over [shiftPath] sees from [path] on. *)
Definition pathSegs (path : string) : list string :=
  match path with
  | "" => []
  | String _ s => splitOn s
  end.

(** The segments of a request path or of a pattern in the specification's
    words: what splitting on ['/'] gives once a leading separator is
    stripped, the empty path counting as the root path. *)
Definition specSegments (path : string) : list string :=
  match path with
  | String b rest => if Ascii.eqb b "/" then splitOn rest else splitOn path
  | "" => splitOn ""
  end.

(** The tree keys and the placeholder names of a pattern's segments. *)
Definition patternKeys (segs : list string) : list string :=
  map (fun head => match placeholder head with
                   | Some _ => "*"
                   | None => head
                   end) segs.

Definition patternNames (segs : list string) : list string :=
  omap placeholder segs.

(** The path segments standing where the pattern has a placeholder. *)
Fixpoint captured (pat path : list string) : list string :=
  match pat, path with
  | p :: pat', s :: path' =>
      match placeholder p with
      | Some _ => s :: captured pat' path'
      | None => captured pat' path'
      end
  | _, _ => []
  end.

(** The value bound to the first occurrence of [name], or the empty string. *)
Fixpoint firstBinding (names vals : list string) (name : string) : string :=
  match names, vals with
  | k :: names', v :: vals' =>
      if String.eqb k name then v else firstBinding names' vals' name
  | _, _ => ""
  end.

Section Tree.
Context {Handler : Type}.
Implicit Types (n current : node Handler) (e : muxEntry Handler).

(** The entry found by following the keys [ks] down from [n]. *)
Fixpoint entryAt n (ks : list string) : option (muxEntry Handler) :=
  match ks with
  | [] => entry n
  | k :: ks' =>
      match children n !! k with
      | Some c => entryAt c ks'
      | None => None
      end
  end.

(** [n] with the entry at the keys [ks] set to [e], missing nodes on the
    way being created empty. *)
Fixpoint setEntryAt n (ks : list string) e : node Handler :=
  match ks with
  | [] => Node (Some e) (children n)
  | k :: ks' =>
      Node (entry n)
        (<[k := setEntryAt (default emptyNode (children n !! k)) ks' e]>
           (children n))
  end.

(** The walk of the specification: from [current], one segment at a time,
    into the exact-literal child when there is one and otherwise into the
    wildcard child, capturing the segment.  It gives the nodes passed, in
    order, and the captured values, and fails when a segment has neither
    child. *)
Fixpoint specWalk (segs : list string) current
  : option (list (node Handler) * list string) :=
  match segs with
  | [] => Some ([], [])
  | seg :: rest =>
      match children current !! seg with
      | Some next =>
          '(ns, vs) ← specWalk rest next; Some (next :: ns, vs)
      | None =>
          match children current !! "*" with
          | Some next =>
              '(ns, vs) ← specWalk rest next; Some (next :: ns, seg :: vs)
          | None => None
          end
      end
  end.

(** The keys the walk follows from [current]. *)
Fixpoint walkKeys (segs : list string) current : list string :=
  match segs with
  | [] => []
  | seg :: rest =>
      match children current !! seg with
      | Some next => seg :: walkKeys rest next
      | None =>
          match children current !! "*" with
          | Some next => "*" :: walkKeys rest next
          | None => []
          end
      end
  end.

(** The entry of the deepest entry-bearing node among [ns]. *)
Definition deepestEntry (ns : list (node Handler)) : option (muxEntry Handler) :=
  last (omap entry ns).

(** Lookup in the specification's words. *)
Definition specLookup (rt : node Handler) (segs : list string)
  : option (MuxMatch Handler) :=
  '(ns, vs) ← specWalk segs rt;
  e ← deepestEntry (rt :: ns);
  Some {| matchEntry := Some e; values := vs |}.

(** The multiplexers that registrations build. *)
Inductive reachable : ServeMux Handler -> Prop :=
| reachable_new : reachable NewMux
| reachable_handle mux ms pat h mux' :
    reachable mux ->
    HandleMethods mux ms pat (Some h) = Ret mux' ->
    reachable mux'.

(** Registering a list of (method, pattern, handler) routes in order, as
    the tests do. *)
Fixpoint HandleAll (mux : ServeMux Handler)
    (routes : list (string * string * Handler)) : outcome (ServeMux Handler) :=
  match routes with
  | [] => Ret mux
  | (method, pat, h) :: rest =>
      mux' ← Handle mux method pat (Some h); HandleAll mux' rest
  end.

(** Where a pattern's entry sits, and the names it declares. *)
Definition patternPos (pat : string) : list string :=
  patternKeys (pathSegs (cleanPath pat)).

Definition patternParams (pat : string) : list string :=
  patternNames (pathSegs (cleanPath pat)).

(** The entry the methods of a registration are bound on: the one at the
    pattern's position, or a fresh one. *)
Definition entryFor (mux : ServeMux Handler) (pat : string) : muxEntry Handler :=
  default (MuxEntry pat (patternParams pat) ∅ (Methods [MethodOptions]))
          (entryAt (root mux) (patternPos pat)).

(** Some method of [ms] already has a handler bound on [e] when its turn to
    be bound comes: [e] binds it, or it is listed a second time. *)
Definition boundAlready (e : muxEntry Handler) (ms : list string) : Prop :=
  exists i m, ms !! i = Some m /\ (is_Some (handlers e !! m) \/ m ∈ take i ms).

(** Every entry of the tree under [n], reached by the keys [pre] from the
    root, carries a pattern that leads to its node and that pattern's
    placeholder names. *)
Definition entriesOk (pre : list string) n : Prop :=
  forall ks e, entryAt n ks = Some e ->
    patternPos (pattern e) = pre ++ ks /\ params e = patternParams (pattern e).
End Tree.
(** The heads a loop over [shiftPath] takes off [path] until it is empty. *)
Fixpoint shiftAll (fuel : nat) (path : string) : outcome (list string) :=
  match path with
  | "" => Ret []
  | String _ _ =>
      match fuel with
      | O => OutOfFuel
      | S fuel' =>
          '(head, tail) ← shiftPath path;
          rest ← shiftAll fuel' tail;
          Ret (head :: rest)
      end
  end.

(** ** Multiplexers of the test suite and of the documentation

    Handlers are labelled by a string, as [newTestHandler] does. *)

Definition fromRet {A : Type} (d : A) (o : outcome A) : A :=
  match o with
  | Ret a => a
  | _ => d
  end.

Definition build (routes : list (string * string * string)) : ServeMux string :=
  fromRet NewMux (HandleAll NewMux routes).

Definition usersRoutes : list (string * string * string) :=
  [("GET", "/users/new", "new"); ("GET", "/users/:id", "show")].

Definition filesRoutes : list (string * string * string) :=
  [("GET", "/files/*path", "files")].

Definition homeRoutes : list (string * string * string) :=
  [("GET", "/home", "home")].

Definition homeSlashRoutes : list (string * string * string) :=
  [("GET", "/home/", "home")].

Definition listRoutes : list (string * string * string) :=
  [("GET", "/users", "list")].

Definition nestedRoutes : list (string * string * string) :=
  [("GET", "/a", "short"); ("GET", "/a/:x/c", "long")].


Definition renamedRoutes : list (string * string * string) :=
  [("GET", "/users/:id", "byId"); ("POST", "/users/:name", "byName")].

Definition fileRoutes : list (string * string * string) :=
  [("GET", "/files/:id", "file")].

Definition homePageRoutes : list (string * string * string) :=
  [("GET", "/home", "home"); ("GET", "home/:page", "page")].

Definition usersAnyRoutes : list (string * string * string) :=
  [("GET", "/users", "users"); ("GET", "/users/*any", "any")].

(** [newTestHandler(v)]: sets Content-Length, writes [v], never fails. *)
Definition testServe (v : string) (w : ResponseWriter) (r : Request string)
  : ResponseWriter * option error :=
  let w := HeaderAdd w "Content-Length" (pretty (String.length v)) in
  let w := WriteHeader w 200 in
  ({| header := header w; status := status w; body := body w +:+ v |}, None).

(** A fresh response writer and a match as [Lookup] allocates it. *)
Definition freshWriter : ResponseWriter :=
  {| header := []; status := None; body := "" |}.

Definition freshMatch : MuxMatch string :=
  {| matchEntry := None; values := [] |}.

(** ** The function-taking registration entry points

    [HandleFunc] and [HandleMethodsFunc] test the function for nil themselves,
    before [HandleMethods] tests anything; [HandlerFunc(handler)] is the
    handler itself here. *)

Section MuxFuncs.
Context {Handler : Type}.

Definition HandleFunc (mux : ServeMux Handler) (method pat : string)
    (handler : option Handler) : outcome (ServeMux Handler) :=
  match handler with
  | None => Panic "webmux: nil handler"
  | Some h => HandleMethods mux (Methods [method]) pat (Some h)
  end.

Definition HandleMethodsFunc (mux : ServeMux Handler) (ms : MethodSet)
    (pat : string) (handler : option Handler) : outcome (ServeMux Handler) :=
  match handler with
  | None => Panic "webmux: nil handler"
  | Some h => HandleMethods mux ms pat (Some h)
  end.

(** [HandleErrorFunc] *)
Definition HandleErrorFunc (mux : ServeMux Handler)
    (h : ResponseWriter -> Request Handler -> error -> ResponseWriter)
  : ServeMux Handler :=
  HandleError mux h.


(** The methods an entry answers, as its handler table determines them:
    OPTIONS, every method with a handler, and HEAD when GET has one. *)
Definition cacheOk (e : muxEntry Handler) : Prop :=
  NoDup (methods e) /\
  forall m, m ∈ methods e <->
    m = MethodOptions \/ is_Some (handlers e !! m) \/
    (m = MethodHead /\ is_Some (handlers e !! MethodGet)).

(** A match with [vs] put before its values: what [lookup] makes of the
    values a match already holds. *)
Definition prependValues (vs : list string) (m : MuxMatch Handler)
  : MuxMatch Handler :=
  {| matchEntry := matchEntry m; values := vs ++ values m |}.
End MuxFuncs.


(** * Properties *)

(** ** The path segmenter *)

Section PathFacts.

Lemma sliceFrom_0 s : sliceFrom s 0 = s.
Proof. by destruct s. Qed.

Lemma IndexByte_ge s c : (-1 <= IndexByte s c)%Z.
Proof.
  induction s as [|b s IH]; simpl; [lia|].
  destruct (Ascii.eqb b c); [lia|].
  destruct (Z.ltb_spec (IndexByte s c) 0); lia.
Qed.

(** Without a separator the whole text is the head. *)
Lemma IndexByte_none s :
  (IndexByte s "/" < 0)%Z -> segHead s = s /\ segTail s = "".
Proof.
  induction s as [|b s IH]; simpl; [done|].
  destruct (Ascii.eqb b "/"); [lia|].
  destruct (Z.ltb_spec (IndexByte s "/") 0) as [Hlt|Hge].
  - intros _. destruct (IH Hlt) as [-> ->]. done.
  - pose proof (IndexByte_ge s "/"). lia.
Qed.

(** With one, the slices at its index are the head and the tail. *)
Lemma IndexByte_some s :
  (0 <= IndexByte s "/")%Z ->
  sliceTo s (Z.to_nat (IndexByte s "/")) = segHead s /\
  sliceFrom s (Z.to_nat (IndexByte s "/")) = segTail s.
Proof.
  induction s as [|b s IH]; simpl; [lia|].
  destruct (Ascii.eqb b "/"); [done|].
  destruct (Z.ltb_spec (IndexByte s "/") 0) as [Hlt|Hge]; [lia|].
  intros _. destruct (IH Hge) as [IH1 IH2].
  replace (Z.to_nat (IndexByte s "/" + 1)) with (S (Z.to_nat (IndexByte s "/"))) by lia.
  simpl. by rewrite IH1, IH2.
Qed.

(** [shiftPath] drops the first byte and cuts at the next separator. *)
Lemma shiftPath_cons c s : shiftPath (String c s) = Ret (segHead s, segTail s).
Proof.
  unfold shiftPath, slice. cbn [sliceFrom]. rewrite !sliceFrom_0.
  destruct (Z.leb_spec (IndexByte s "/" + 1) 0) as [Hle|Hgt].
  - destruct (IndexByte_none s) as [H1 H2]; [lia|]. by rewrite H1, H2.
  - destruct (IndexByte_some s) as [H1 H2]; [lia|].
    replace (Z.to_nat (IndexByte s "/" + 1))
      with (S (Z.to_nat (IndexByte s "/"))) by lia.
    replace (S (Z.to_nat (IndexByte s "/")) - 1)
      with (Z.to_nat (IndexByte s "/")) by lia.
    by rewrite H1, H2.
Qed.

Lemma segTail_length s : String.length (segTail s) <= String.length s.
Proof.
  induction s as [|b s IH]; simpl; [lia|].
  destruct (Ascii.eqb b "/"); simpl; lia.
Qed.

Lemma splitOn_unfold s : splitOn s = segHead s :: pathSegs (segTail s).
Proof.
  induction s as [|b s IH]; simpl; [done|].
  destruct (Ascii.eqb b "/"); [done|]. by rewrite IH.
Qed.

Lemma pathSegs_cons c s :
  pathSegs (String c s) = segHead s :: pathSegs (segTail s).
Proof. apply splitOn_unfold. Qed.

Lemma cleanPath_nonempty p : cleanPath p <> "".
Proof.
  destruct p as [|b p]; simpl; [done|]. by destruct (Ascii.eqb b "/").
Qed.

(** The segments the loops see are the specification's segments. *)
Lemma pathSegs_cleanPath p : pathSegs (cleanPath p) = specSegments p.
Proof.
  destruct p as [|b p]; simpl; [done|].
  destruct (Ascii.eqb b "/") eqn:Hb; simpl; [done|]. by rewrite Hb.
Qed.

Lemma pathSegs_cleanPath_nonempty p : pathSegs (cleanPath p) <> [].
Proof.
  rewrite pathSegs_cleanPath. unfold specSegments.
  assert (forall s, splitOn s <> []) as Hne.
  { intros s. by rewrite splitOn_unfold. }
  destruct p as [|b p]; [apply Hne|]. destruct (Ascii.eqb b "/"); apply Hne.
Qed.
End PathFacts.

(** ** The loop of [lookup] is the specification's walk *)

Section LookupFacts.
Context {Handler : Type}.
Implicit Types (current next : node Handler) (e : muxEntry Handler).

Lemma deepestEntry_cons next (ns : list (node Handler)) :
  deepestEntry (next :: ns) =
    match deepestEntry ns with
    | Some e => Some e
    | None => entry next
    end.
Proof.
  unfold deepestEntry. cbn [omap list_omap].
  destruct (entry next) as [e|]; [|by destruct (last _)].
  rewrite last_cons. by destruct (last _).
Qed.

(** What [lookupLoop] returns from any point of the walk on, given enough
    fuel: the deepest entry passed from here on, else the best so far. *)
Lemma lookupLoop_specWalk fuel :
  forall path current (best : option (muxEntry Handler)) vs,
    String.length path <= fuel ->
    lookupLoop fuel path current best vs =
      Ret (match specWalk (pathSegs path) current with
           | None => None
           | Some (ns, vs') =>
               match deepestEntry ns with
               | Some e => Some {| matchEntry := Some e; values := vs ++ vs' |}
               | None =>
                   match best with
                   | Some e => Some {| matchEntry := Some e; values := vs ++ vs' |}
                   | None => None
                   end
               end
           end).
Proof.
  induction fuel as [|fuel IH]; intros path current best vs Hlen.
  - destruct path; [|simpl in Hlen; lia].
    simpl. rewrite app_nil_r. by destruct best.
  - destruct path as [|c s].
    { simpl. rewrite app_nil_r. by destruct best. }
    cbn [lookupLoop]. rewrite shiftPath_cons, pathSegs_cons.
    cbn [mbind outcome_bind specWalk].
    assert (String.length (segTail s) <= fuel) as Htl.
    { pose proof (segTail_length s). simpl in Hlen. lia. }
    destruct (children current !! segHead s) as [next|].
    + rewrite IH by done.
      destruct (specWalk (pathSegs (segTail s)) next) as [[ns vs']|]; [|done].
      cbn. rewrite deepestEntry_cons.
      destruct (deepestEntry ns); [done|]. by destruct (entry next).
    + destruct (children current !! "*") as [next|]; [|done].
      rewrite IH by done.
      destruct (specWalk (pathSegs (segTail s)) next) as [[ns vs']|]; [|done].
      cbn. rewrite deepestEntry_cons, <- app_assoc. cbn.
      destruct (deepestEntry ns); [done|]. by destruct (entry next).
Qed.

(** [Lookup] always returns, and returns what the specification's lookup
    gives when the root carries no entry. *)
Lemma Lookup_specLookup (mux : ServeMux Handler) (path : string) :
  entry (root mux) = None ->
  Lookup mux path = Ret (specLookup (root mux) (specSegments path)).
Proof.
  intros Hroot. unfold Lookup, lookup, specLookup.
  rewrite lookupLoop_specWalk by done. rewrite pathSegs_cleanPath. cbn.
  destruct (specWalk (specSegments path) (root mux)) as [[ns vs]|]; [|done].
  cbn. rewrite deepestEntry_cons, Hroot. by destruct (deepestEntry ns).
Qed.
End LookupFacts.

(** ** Registration *)

Section RegistrationFacts.
Context {Handler : Type}.
Implicit Types (n current : node Handler) (e : muxEntry Handler).
Implicit Types (h : Handler) (ms : list string).

Lemma setHandler_Ret e method h e' :
  setHandler e method h = Ret e' ->
  handlers e !! method = None /\
  pattern e' = pattern e /\ params e' = params e /\
  handlers e' = <[method := h]> (handlers e).
Proof.
  unfold setHandler. destruct (handlers e !! method); [done|].
  intros [= <-]. done.
Qed.

(** Binding a list of methods returns exactly when no method is listed
    twice and none is bound yet; otherwise it panics. *)
Lemma setHandlers_Ret ms : forall e h,
  NoDup ms -> (forall m, m ∈ ms -> handlers e !! m = None) ->
  exists e', setHandlers e ms h = Ret e' /\
             pattern e' = pattern e /\ params e' = params e.
Proof.
  induction ms as [|m ms IH]; intros e h Hnd Hfree; [by exists e|].
  apply NoDup_cons in Hnd as [Hm Hnd].
  cbn [setHandlers]. unfold setHandler at 1.
  rewrite (Hfree m) by (apply elem_of_cons; auto).
  cbn [mbind outcome_bind].
  edestruct (IH (MuxEntry (pattern e) (params e) (<[m:=h]> (handlers e))
    (if String.eqb m MethodGet
        && negb (MethodSet.Has (MethodSet.Add (methods e) m) MethodHead)
     then MethodSet.Add (MethodSet.Add (methods e) m) MethodHead
     else MethodSet.Add (methods e) m)) h) as (e' & He' & Hp & Hps); [done| |].
  - intros m' Hm'. cbn. rewrite lookup_insert_ne by congruence.
    apply Hfree, elem_of_cons; auto.
  - exists e'. done.
Qed.

Lemma setHandlers_Panic ms : forall e h,
  ~ (NoDup ms /\ forall m, m ∈ ms -> handlers e !! m = None) ->
  exists msg, setHandlers e ms h = Panic msg.
Proof.
  induction ms as [|m ms IH]; intros e h Hbad.
  { destruct Hbad. split; [constructor|]. intros m Hm. by apply elem_of_nil in Hm. }
  cbn [setHandlers]. unfold setHandler at 1.
  destruct (handlers e !! m) eqn:Hm; [by eexists|].
  cbn [mbind outcome_bind]. apply IH. intros [Hnd Hfree]. apply Hbad.
  assert (m ∉ ms) as Hnotin.
  { intros Hin. specialize (Hfree m Hin). cbn in Hfree.
    by rewrite lookup_insert_eq in Hfree. }
  split; [by apply NoDup_cons|].
  intros m' [->|Hm']%elem_of_cons; [done|].
  specialize (Hfree m' Hm'). cbn in Hfree.
  rewrite lookup_insert_ne in Hfree; [done|]. congruence.
Qed.

(** Reading the tree after an update at [ks]. *)
Lemma entryAt_emptyNode ks : entryAt (@emptyNode Handler) ks = None.
Proof. by destruct ks. Qed.

Lemma entryAt_default n (k : string) ks :
  entryAt (default emptyNode (children n !! k)) ks = entryAt n (k :: ks).
Proof.
  cbn [entryAt]. destruct (children n !! k); [done|]. apply entryAt_emptyNode.
Qed.

Lemma entryAt_setEntryAt_eq ks : forall n e,
  entryAt (setEntryAt n ks e) ks = Some e.
Proof.
  induction ks as [|k ks IH]; intros n e; [done|].
  cbn. rewrite lookup_insert_eq. apply IH.
Qed.

Lemma entryAt_setEntryAt_ne ks : forall n e ks',
  ks' <> ks -> entryAt (setEntryAt n ks e) ks' = entryAt n ks'.
Proof.
  induction ks as [|k ks IH]; intros n e ks' Hne.
  - destruct ks' as [|k' ks']; [done|]. done.
  - destruct ks' as [|k' ks']; [done|].
    cbn [setEntryAt entryAt children].
    destruct (decide (k = k')) as [->|Hk].
    + rewrite lookup_insert_eq, IH by congruence. apply entryAt_default.
    + by rewrite lookup_insert_ne.
Qed.

(** The registration loop, given enough fuel, binds the methods on the
    entry at the pattern's position (a fresh one when there is none) and
    stores it there. *)
Lemma handleLoop_setEntryAt fuel ms pat h :
  forall path ps current,
    String.length path <= fuel ->
    handleLoop fuel ms pat h path ps current =
      e' ← setHandlers
             (default (MuxEntry pat (ps ++ patternNames (pathSegs path)) ∅
                         (Methods [MethodOptions]))
                      (entryAt current (patternKeys (pathSegs path))))
             ms h;
      Ret (setEntryAt current (patternKeys (pathSegs path)) e').
Proof.
  induction fuel as [|fuel IH]; intros path ps current Hlen.
  - destruct path; [|simpl in Hlen; lia].
    cbn. rewrite app_nil_r. by destruct (entry current).
  - destruct path as [|c s].
    { cbn. rewrite app_nil_r. by destruct (entry current). }
    cbn [handleLoop]. rewrite shiftPath_cons, pathSegs_cons.
    cbn [mbind outcome_bind].
    assert (String.length (segTail s) <= fuel) as Htl.
    { pose proof (segTail_length s). simpl in Hlen. lia. }
    cbn [patternKeys patternNames map omap list_omap].
    fold (patternKeys (pathSegs (segTail s))).
    fold (patternNames (pathSegs (segTail s))).
    destruct (placeholder (segHead s)) as [name|] eqn:Hph.
    + rewrite IH by done. rewrite <- app_assoc. cbn [app].
      cbn [entryAt setEntryAt].
      destruct (children current !! "*") as [next|]; cbn [default].
      * by destruct (setHandlers _ ms h).
      * rewrite entryAt_emptyNode. by destruct (setHandlers _ ms h).
    + rewrite IH by done. cbn [entryAt setEntryAt].
      destruct (children current !! segHead s) as [next|]; cbn [default].
      * by destruct (setHandlers _ ms h).
      * rewrite entryAt_emptyNode. by destruct (setHandlers _ ms h).
Qed.
End RegistrationFacts.


Section ReachableFacts.
Context {Handler : Type}.
Implicit Types (mux : ServeMux Handler) (e : muxEntry Handler).
Implicit Types (h : Handler) (ms : list string).

(** [HandleMethods] past its three guards. *)
Lemma HandleMethods_setEntryAt mux ms pat h :
  ms <> [] -> pat <> "" ->
  HandleMethods mux ms pat (Some h) =
    e' ← setHandlers (entryFor mux pat) ms h;
    Ret {| errHandler := errHandler mux;
           root := setEntryAt (root mux) (patternPos pat) e' |}.
Proof.
  intros Hms Hpat. unfold HandleMethods.
  destruct ms as [|m ms]; [done|]. destruct pat as [|c pat]; [done|].
  rewrite handleLoop_setEntryAt by done.
  unfold entryFor, patternPos, patternParams. cbn [app].
  by destruct (setHandlers _ (m :: ms) h).
Qed.

Lemma HandleMethods_Ret_inv mux ms pat h mux' :
  HandleMethods mux ms pat (Some h) = Ret mux' ->
  exists e', setHandlers (entryFor mux pat) ms h = Ret e' /\
             root mux' = setEntryAt (root mux) (patternPos pat) e' /\
             errHandler mux' = errHandler mux.
Proof.
  intros Hret.
  assert (ms <> [] /\ pat <> "") as [Hms Hpat].
  { unfold HandleMethods in Hret. destruct ms; [done|]. by destruct pat. }
  rewrite HandleMethods_setEntryAt in Hret by done.
  destruct (setHandlers (entryFor mux pat) ms h) as [e'| |]; try done.
  cbn in Hret. injection Hret as <-. by exists e'.
Qed.

Lemma setHandlers_Ret_inv ms : forall e h e',
  setHandlers e ms h = Ret e' ->
  pattern e' = pattern e /\ params e' = params e.
Proof.
  induction ms as [|m ms IH]; intros e h e' Hret.
  { by injection Hret as <-. }
  cbn [setHandlers] in Hret.
  destruct (setHandler e m h) as [e1| |] eqn:H1; try done.
  cbn in Hret. apply IH in Hret as [-> ->].
  apply setHandler_Ret in H1 as (_ & -> & -> & _). done.
Qed.

Lemma patternPos_nonempty pat : patternPos pat <> [].
Proof.
  unfold patternPos, patternKeys.
  pose proof (pathSegs_cleanPath_nonempty pat).
  by destruct (pathSegs (cleanPath pat)).
Qed.

(** The root of a multiplexer never carries an entry. *)
Lemma reachable_root_entry mux : reachable mux -> entry (root mux) = None.
Proof.
  induction 1 as [|mux ms pat h mux' _ IH Hret]; [done|].
  apply HandleMethods_Ret_inv in Hret as (e' & _ & -> & _).
  change (entryAt (setEntryAt (root mux) (patternPos pat) e') [] = None).
  rewrite entryAt_setEntryAt_ne; [done|].
  intros Heq. by apply (patternPos_nonempty pat).
Qed.

(** Every entry sits where its own pattern leads and lists that pattern's
    placeholder names. *)
Lemma reachable_entriesOk mux : reachable mux -> entriesOk [] (root mux).
Proof.
  induction 1 as [|mux ms pat h mux' _ IH Hret].
  { intros ks e. cbn. by rewrite entryAt_emptyNode. }
  apply HandleMethods_Ret_inv in Hret as (e' & Hset & -> & _).
  apply setHandlers_Ret_inv in Hset as [Hpat Hps].
  intros ks e. destruct (decide (ks = patternPos pat)) as [->|Hne].
  - rewrite entryAt_setEntryAt_eq. intros [= <-].
    rewrite Hpat, Hps. unfold entryFor.
    destruct (entryAt (root mux) (patternPos pat)) as [e0|] eqn:He0; cbn.
    + apply IH in He0 as [H1 H2]. cbn in H1. by rewrite H1.
    + done.
  - rewrite entryAt_setEntryAt_ne by done. apply IH.
Qed.

Lemma HandleAll_reachable routes : forall mux mux',
  reachable mux -> HandleAll mux routes = Ret mux' -> reachable mux'.
Proof.
  induction routes as [|[[method pat] h] routes IH]; intros mux mux' Hr Hall.
  { by injection Hall as <-. }
  cbn [HandleAll] in Hall.
  destruct (Handle mux method pat (Some h)) as [mux1| |] eqn:H1; try done.
  cbn in Hall. eapply IH; [|done]. by eapply reachable_handle.
Qed.
End ReachableFacts.

Section PanicFacts.
Context {Handler : Type}.
Implicit Types (mux : ServeMux Handler) (e : muxEntry Handler).
Implicit Types (h : Handler) (ms : list string).

Lemma not_NoDup_listed_twice ms :
  ~ NoDup ms -> exists i m, ms !! i = Some m /\ m ∈ take i ms.
Proof.
  induction ms as [|x l IH]; intros Hnd.
  { destruct Hnd. constructor. }
  destruct (decide (x ∈ l)) as [Hin|Hnotin].
  - apply list_elem_of_lookup_1 in Hin as [j Hj].
    exists (S j), x. split; [done|]. cbn. apply elem_of_cons. by left.
  - destruct IH as (i & m & Hi & Hm).
    { intros Hl. apply Hnd. by apply NoDup_cons. }
    exists (S i), m. split; [done|]. cbn. apply elem_of_cons. by right.
Qed.

Lemma boundAlready_iff e ms :
  boundAlready e ms <->
  ~ (NoDup ms /\ forall m, m ∈ ms -> handlers e !! m = None).
Proof.
  split.
  - intros (i & m & Hi & [Hbound|Htwice]) [Hnd Hfree].
    + rewrite (Hfree m) in Hbound by (by eapply list_elem_of_lookup_2).
      by destruct Hbound.
    + rewrite <- (take_drop_middle ms i m Hi) in Hnd.
      apply NoDup_app in Hnd as (_ & Hdisj & _).
      apply (Hdisj m Htwice). apply elem_of_cons. by left.
  - intros Hbad. destruct (decide (NoDup ms)) as [Hnd|Hnd].
    + destruct (decide (Forall (fun m => handlers e !! m = None) ms)) as [Hall|Hall].
      { destruct Hbad. split; [done|]. by apply Forall_forall. }
      apply not_Forall_Exists in Hall; [|apply _].
      apply Exists_exists in Hall as (m & Hm & Hb).
      apply list_elem_of_lookup_1 in Hm as [i Hi].
      exists i, m. split; [done|]. left. cbn in Hb.
      destruct (handlers e !! m); [by eexists|done].
    + destruct (not_NoDup_listed_twice ms Hnd) as (i & m & Hi & Hm).
      exists i, m. auto.
Qed.

(** C6.  Registration panics exactly on a bad input and returns on every
    other one: [HandleMethods] panics when the method set is empty, when the
    pattern is the empty string, when the handler is nil, and when one of
    the given methods already has a handler bound on the pattern's entry
    at the time it is to be bound (by an earlier registration, or by an
    earlier occurrence in the same list); on every other input it returns
    the extended multiplexer.  It never runs out of fuel. *)
Theorem HandleMethods_panics_exactly_on_bad_input
    (mux : ServeMux Handler) (ms : MethodSet) (pat : string)
    (handler : option Handler) :
  let bad := ms = [] \/ pat = "" \/ handler = None \/
             boundAlready (entryFor mux pat) ms in
  (bad -> exists msg, HandleMethods mux ms pat handler = Panic msg) /\
  (~ bad -> exists mux', HandleMethods mux ms pat handler = Ret mux').
Proof.
  cbv zeta. split.
  - intros [->|[->|[->|Hb]]].
    + by eexists.
    + destruct ms; by eexists.
    + destruct ms; [by eexists|]. destruct pat; by eexists.
    + destruct ms as [|m ms]; [by eexists|].
      destruct pat as [|c pat]; [by eexists|].
      destruct handler as [h|]; [|by eexists].
      rewrite HandleMethods_setEntryAt by done.
      apply boundAlready_iff in Hb.
      destruct (setHandlers_Panic (m :: ms) (entryFor mux (String c pat)) h Hb)
        as [msg ->].
      by exists msg.
  - intros Hok.
    destruct ms as [|m ms]; [destruct Hok; auto|].
    destruct pat as [|c pat]; [destruct Hok; auto|].
    destruct handler as [h|]; [|destruct Hok; auto].
    rewrite HandleMethods_setEntryAt by done.
    destruct (decide (NoDup (m :: ms))) as [Hnd|Hnd]; cycle 1.
    { destruct Hok. do 3 right. apply boundAlready_iff. tauto. }
    destruct (decide (Forall
      (fun m' => handlers (entryFor mux (String c pat)) !! m' = None) (m :: ms)))
      as [Hall|Hall]; cycle 1.
    { destruct Hok. do 3 right. apply boundAlready_iff.
      intros [_ Hfree]. by apply Hall, Forall_forall. }
    destruct (setHandlers_Ret (m :: ms) (entryFor mux (String c pat)) h Hnd)
      as (e' & -> & _); [by apply Forall_forall|].
    by eexists.
Qed.
End PanicFacts.

(** ** The claims about lookup *)

Lemma build_reachable {Handler : Type}
    (routes : list (string * string * Handler)) (mux : ServeMux Handler) :
  HandleAll NewMux routes = Ret mux -> reachable mux.
Proof. apply HandleAll_reachable. constructor. Qed.



(** ** The claims about the path segmenter *)

Lemma shiftAll_pathSegs fuel : forall path,
  String.length path <= fuel -> shiftAll fuel path = Ret (pathSegs path).
Proof.
  induction fuel as [|fuel IH]; intros path Hlen.
  - destruct path; [done|simpl in Hlen; lia].
  - destruct path as [|c s]; [done|].
    cbn [shiftAll]. rewrite shiftPath_cons, pathSegs_cons. cbn.
    rewrite IH; [done|]. pose proof (segTail_length s). simpl in Hlen. lia.
Qed.

(** C10.  [cleanPath] maps the empty string to "/", leaves a path that begins
    with '/' unchanged and puts a '/' before any other; nothing else is
    rewritten.  The loop over [shiftPath] then sees every piece between two
    separators of the cleaned path, empty pieces, "." and ".." included, and
    registration keys each of them by its own text. *)
Theorem cleanPath_only_adds_leading_slash :
  cleanPath "" = "/" /\
  (forall c s, cleanPath (String c s) =
     if Ascii.eqb c "/" then String c s else String "/" (String c s)) /\
  (forall p, shiftAll (String.length (cleanPath p)) (cleanPath p) =
     Ret (specSegments p)) /\
  cleanPath "/a//b/./../" = "/a//b/./../" /\
  shiftAll 11 "/a//b/./../" = Ret ["a"; ""; "b"; "."; ".."; ""] /\
  patternKeys ["a"; ""; "b"; "."; ".."; ""] = ["a"; ""; "b"; "."; ".."; ""] /\
  (pattern <$> entryAt (root (build homeSlashRoutes)) ["home"; ""]) = Some "/home/".
Proof.
  split; [done|]. split.
  { intros c s. cbn. by destruct (Ascii.eqb c "/"). }
  split.
  { intros p. rewrite shiftAll_pathSegs by done. by rewrite pathSegs_cleanPath. }
  repeat split; vm_compute; reflexivity.
Qed.

(** ** Wildcards, trailing separators and parameters at the documented inputs *)

(** C2.  The code at the claim's inputs: with /files/*path registered, the
    path /files/a/b finds no match (the wildcard child has no child for the
    second remaining segment), and the path /files/ matches /files/*path with
    the empty string as captured value (the empty trailing segment is taken
    by the wildcard). *)
Theorem trailing_wildcard_takes_exactly_one_segment :
  HandleAll NewMux filesRoutes = Ret (build filesRoutes) /\
  Lookup (build filesRoutes) "/files/a/b" = Ret None /\
  Lookup (build filesRoutes) "/files/" =
    Ret (Some {| matchEntry := entryAt (root (build filesRoutes)) ["files"; "*"];
                 values := [""] |}) /\
  (pattern <$> entryAt (root (build filesRoutes)) ["files"; "*"]) = Some "/files/*path" /\
  Lookup (build filesRoutes) "/files/a" =
    Ret (Some {| matchEntry := entryAt (root (build filesRoutes)) ["files"; "*"];
                 values := ["a"] |}).
Proof. repeat split; vm_compute; reflexivity. Qed.

(** C3.  The code at the claim's inputs: with /home registered, /home
    resolves to its entry and /home/ finds no match; with /home/ registered
    it is the other way round; and with the patterns of the test suite, the
    path /home/ resolves to home/:page and /users/ to /users/*any, each with
    the empty string captured, where the tests expect /home and /users. *)
Theorem trailing_slash_is_a_segment :
  (HandleAll NewMux homeRoutes = Ret (build homeRoutes) /\
   Lookup (build homeRoutes) "/home" =
     Ret (Some {| matchEntry := entryAt (root (build homeRoutes)) ["home"];
                  values := [] |}) /\
   (pattern <$> entryAt (root (build homeRoutes)) ["home"]) = Some "/home" /\
   Lookup (build homeRoutes) "/home/" = Ret None) /\
  (HandleAll NewMux homeSlashRoutes = Ret (build homeSlashRoutes) /\
   Lookup (build homeSlashRoutes) "/home" = Ret None /\
   Lookup (build homeSlashRoutes) "/home/" =
     Ret (Some {| matchEntry := entryAt (root (build homeSlashRoutes)) ["home"; ""];
                  values := [] |}) /\
   (pattern <$> entryAt (root (build homeSlashRoutes)) ["home"; ""]) = Some "/home/") /\
  (HandleAll NewMux homePageRoutes = Ret (build homePageRoutes) /\
   Lookup (build homePageRoutes) "/home/" =
     Ret (Some {| matchEntry := entryAt (root (build homePageRoutes)) ["home"; "*"];
                  values := [""] |}) /\
   (pattern <$> entryAt (root (build homePageRoutes)) ["home"; "*"]) = Some "home/:page") /\
  (HandleAll NewMux usersAnyRoutes = Ret (build usersAnyRoutes) /\
   Lookup (build usersAnyRoutes) "/users/" =
     Ret (Some {| matchEntry := entryAt (root (build usersAnyRoutes)) ["users"; "*"];
                  values := [""] |}) /\
   (pattern <$> entryAt (root (build usersAnyRoutes)) ["users"; "*"]) = Some "/users/*any").
Proof. repeat split; vm_compute; reflexivity. Qed.

(** C9.  The code at a path whose segment is the text "*": with /files/:id
    registered, the path /files/* finds the wildcard child under the key "*"
    as if it were a literal child, captures nothing, and matches /files/:id
    with no captured value; [Param] then reads index 0 of the empty value
    sequence and panics.  On /files/7 the value is captured and read. *)
Theorem Param_panics_after_star_segment :
  HandleAll NewMux fileRoutes = Ret (build fileRoutes) /\
  Lookup (build fileRoutes) "/files/*" =
    Ret (Some {| matchEntry := entryAt (root (build fileRoutes)) ["files"; "*"];
                 values := [] |}) /\
  (params <$> entryAt (root (build fileRoutes)) ["files"; "*"]) = Some ["id"] /\
  Param {| matchEntry := entryAt (root (build fileRoutes)) ["files"; "*"];
           values := [] |} "id" = Panic "index out of range" /\
  Lookup (build fileRoutes) "/files/7" =
    Ret (Some {| matchEntry := entryAt (root (build fileRoutes)) ["files"; "*"];
                 values := ["7"] |}) /\
  Param {| matchEntry := entryAt (root (build fileRoutes)) ["files"; "*"];
           values := ["7"] |} "id" = Ret "7".
Proof. repeat split; vm_compute; reflexivity. Qed.

(** ** Dispatch *)

Section DispatchFacts.
Context {Handler : Type}.
Context (serve : Handler -> ResponseWriter -> Request Handler ->
                 ResponseWriter * option error).
Implicit Types (mux : ServeMux Handler) (m pooled : MuxMatch Handler).
Implicit Types (e : muxEntry Handler) (w : ResponseWriter) (r : Request Handler).

(** A pooled match is reset before use: what it held does not matter. *)
Lemma lookup_Reset mux path pooled :
  lookup mux path (Reset pooled) = Lookup mux path.
Proof. done. Qed.

(** A path that matches and a method without handler, neither HEAD nor
    OPTIONS: [ServeHTTPErr] returns the very error it returns when no
    pattern matches, and leaves the request context as it was. *)
Lemma ServeHTTPErr_no_handler mux pooled w r m e :
  Lookup mux (URLPath r) = Ret (Some m) -> matchEntry m = Some e ->
  handlers e !! Method r = None ->
  Method r <> MethodHead -> Method r <> MethodOptions ->
  ServeHTTPErr serve mux pooled w r = Ret (w, Some ErrMuxNotFound).
Proof.
  intros Hl He Hh Hhead Hopt. unfold ServeHTTPErr.
  rewrite lookup_Reset, Hl. cbn. unfold MatchHandler. rewrite He, Hh.
  apply String.eqb_neq in Hhead, Hopt. by rewrite Hhead, Hopt.
Qed.


End DispatchFacts.

(** ** Captured values and parameters *)

Section CaptureFacts.
Context {Handler : Type}.
Implicit Types (mux : ServeMux Handler) (current : node Handler).
Implicit Types (e : muxEntry Handler) (m : MuxMatch Handler).

(** A key is the wildcard key exactly where the pattern has a placeholder. *)
Lemma patternKeys_captured psegs : forall segs,
  Forall (fun s => s <> "*") segs ->
  captured psegs segs =
    (filter (fun ks => ks.1 = "*") (zip (patternKeys psegs) segs)).*2.
Proof.
  induction psegs as [|p psegs IH]; intros segs Hsegs; [done|].
  destruct segs as [|s segs]; [done|].
  apply Forall_cons in Hsegs as [Hs Hsegs]. cbn [captured patternKeys map zip zip_with].
  rewrite filter_cons. fold (patternKeys psegs).
  destruct (placeholder p) as [name|] eqn:Hp; cbn [fst].
  - rewrite decide_True by done. cbn. by rewrite IH.
  - rewrite decide_False; [by apply IH|].
    intros ->. by cbn in Hp.
Qed.

Lemma captured_length psegs : forall segs,
  length psegs = length segs ->
  length (captured psegs segs) = length (patternNames psegs).
Proof.
  induction psegs as [|p psegs IH]; intros [|s segs] Hlen; try done.
  cbn [captured patternNames omap list_omap]. fold (patternNames psegs).
  injection Hlen as Hlen. destruct (placeholder p); cbn; rewrite IH; done.
Qed.

(** What the walk passes and captures, in terms of the keys it follows. *)
Lemma specWalk_walkKeys segs : forall current ns vs,
  specWalk segs current = Some (ns, vs) ->
  length (walkKeys segs current) = length segs /\
  (forall d n, ns !! d = Some n ->
     entry n = entryAt current (take (S d) (walkKeys segs current))) /\
  (Forall (fun s => s <> "*") segs ->
     vs = (filter (fun ks => ks.1 = "*") (zip (walkKeys segs current) segs)).*2).
Proof.
  induction segs as [|seg rest IH]; intros current ns vs Hwalk.
  { injection Hwalk as <- <-. done. }
  cbn [specWalk walkKeys] in *.
  destruct (children current !! seg) as [next|] eqn:Hlit.
  - destruct (specWalk rest next) as [[ns' vs']|] eqn:Hrest; [|done].
    cbn in Hwalk. injection Hwalk as <- <-.
    destruct (IH _ _ _ Hrest) as (Hlen & Hent & Hvs).
    split; [cbn; by rewrite Hlen|]. split.
    + intros [|d] n Hn; cbn in Hn.
      * injection Hn as <-. cbn. by rewrite Hlit.
      * cbn [take entryAt]. rewrite Hlit. by apply Hent.
    + intros [Hseg Hrest']%Forall_cons. cbn [zip zip_with].
      rewrite filter_cons, decide_False by done. by apply Hvs.
  - destruct (children current !! "*") as [next|] eqn:Hwild; [|done].
    destruct (specWalk rest next) as [[ns' vs']|] eqn:Hrest; [|done].
    cbn in Hwalk. injection Hwalk as <- <-.
    destruct (IH _ _ _ Hrest) as (Hlen & Hent & Hvs).
    split; [cbn; by rewrite Hlen|]. split.
    + intros [|d] n Hn; cbn in Hn.
      * injection Hn as <-. cbn. by rewrite Hwild.
      * cbn [take entryAt]. rewrite Hwild. by apply Hent.
    + intros [Hseg Hrest']%Forall_cons. cbn [zip zip_with].
      rewrite filter_cons, decide_True by done. cbn. by rewrite <- Hvs.
Qed.

Lemma deepestEntry_Some (ns : list (node Handler)) e :
  deepestEntry ns = Some e -> exists d n, ns !! d = Some n /\ entry n = Some e.
Proof.
  unfold deepestEntry. intros Hlast.
  apply last_Some_elem_of, list_elem_of_omap in Hlast as (n & Hn & He).
  apply list_elem_of_lookup_1 in Hn as [d Hd]. by exists d, n.
Qed.

(** The scan of [Param] is safe and positional once there are at least as
    many values as names. *)
Lemma paramScan_firstBinding names : forall i vs name,
  length names + i <= length vs ->
  paramScan names i name vs = Ret (firstBinding names (drop i vs) name).
Proof.
  induction names as [|k names IH]; intros i vs name Hlen; [done|].
  cbn [paramScan]. cbn in Hlen.
  destruct (drop i vs) as [|v rest] eqn:Hdrop.
  { apply (f_equal length) in Hdrop. rewrite length_drop in Hdrop.
    cbn in Hdrop. lia. }
  assert (vs !! i = Some v) as Hi.
  { rewrite <- (Nat.add_0_r i), <- lookup_drop, Hdrop. done. }
  assert (drop (S i) vs = rest) as Hrest.
  { replace (S i) with (i + 1) by lia.
    rewrite <- (drop_drop vs 1 i). by rewrite Hdrop. }
  cbn [firstBinding]. destruct (String.eqb k name); [by rewrite Hi|].
  rewrite IH by lia. by rewrite Hrest.
Qed.
End CaptureFacts.

(** The entry a successful lookup reports sits at a prefix of the keys the
    walk followed. *)
Lemma Lookup_entry_position {Handler : Type} (mux : ServeMux Handler) path m e :
  reachable mux -> Lookup mux path = Ret (Some m) -> matchEntry m = Some e ->
  exists ns d,
    specWalk (specSegments path) (root mux) = Some (ns, values m) /\
    d < length (specSegments path) /\
    entryAt (root mux) (take (S d) (walkKeys (specSegments path) (root mux)))
      = Some e.
Proof.
  intros Hr Hl He. pose proof (reachable_root_entry mux Hr) as Hroot.
  rewrite (Lookup_specLookup mux path Hroot) in Hl. injection Hl as Hl.
  unfold specLookup in Hl.
  destruct (specWalk (specSegments path) (root mux)) as [[ns vs]|] eqn:Hwalk;
    [|done].
  cbn in Hl. rewrite deepestEntry_cons, Hroot in Hl.
  destruct (deepestEntry ns) as [e'|] eqn:Hdeep; [|done].
  cbn in Hl. injection Hl as <-. cbn in He. injection He as ->.
  destruct (deepestEntry_Some ns e Hdeep) as (d & n & Hd & Hn).
  destruct (specWalk_walkKeys _ _ _ _ Hwalk) as (Hlen & Hent & _).
  exists ns, d. split; [done|]. split.
  - apply lookup_lt_Some in Hd.
    assert (length ns = length (specSegments path)) as <-; [|done].
    clear -Hwalk. revert Hwalk. generalize (root mux).
    generalize (specSegments path) as segs. intros segs. revert ns vs.
    induction segs as [|seg rest IH]; intros ns vs current Hwalk.
    { by injection Hwalk as <- <-. }
    cbn [specWalk] in Hwalk.
    destruct (children current !! seg) as [next|].
    + destruct (specWalk rest next) as [[ns' vs']|] eqn:Hrest; [|done].
      cbn in Hwalk. injection Hwalk as <- <-. cbn. f_equal. by eapply IH.
    + destruct (children current !! "*") as [next|]; [|done].
      destruct (specWalk rest next) as [[ns' vs']|] eqn:Hrest; [|done].
      cbn in Hwalk. injection Hwalk as <- <-. cbn. f_equal. by eapply IH.
  - rewrite <- Hn. symmetry. by apply Hent.
Qed.




(** ** One entry per position of the tree *)

(** C8, as amended.  One entry exists per position of the tree, that is per
    key sequence of the cleaned pattern with every placeholder collapsed to
    the wildcard key: a registration touches the entry at its pattern's
    position and no other; it creates that entry with the pattern's own text
    and placeholder names when there is none, and otherwise keeps the text
    and names the entry had; and every entry of the tree carries a pattern
    that leads to its position together with that pattern's placeholder
    names, in order. *)
Theorem one_entry_per_tree_position
    {Handler : Type} (mux mux' : ServeMux Handler) (ms : MethodSet)
    (pat : string) (h : Handler) :
  reachable mux ->
  HandleMethods mux ms pat (Some h) = Ret mux' ->
  (exists e', entryAt (root mux') (patternPos pat) = Some e' /\
     match entryAt (root mux) (patternPos pat) with
     | Some e => pattern e' = pattern e /\ params e' = params e
     | None => pattern e' = pat /\ params e' = patternParams pat
     end) /\
  (forall ks, ks <> patternPos pat ->
     entryAt (root mux') ks = entryAt (root mux) ks) /\
  (forall ks e, entryAt (root mux') ks = Some e ->
     patternPos (pattern e) = ks /\ params e = patternParams (pattern e)).
Proof.
  intros Hr Hreg.
  pose proof (reachable_entriesOk mux' (reachable_handle _ _ _ _ _ Hr Hreg))
    as Hok.
  apply HandleMethods_Ret_inv in Hreg as (e' & Hset & Hroot & _).
  apply setHandlers_Ret_inv in Hset as [Hpat Hps].
  split; [|split].
  - exists e'. rewrite Hroot, entryAt_setEntryAt_eq. split; [done|].
    unfold entryFor in Hpat, Hps.
    by destruct (entryAt (root mux) (patternPos pat)).
  - intros ks Hne. rewrite Hroot. by apply entryAt_setEntryAt_ne.
  - intros ks e He. by apply Hok in He.
Qed.

(** C8 as stated fails: the patterns /users/:id and /users/:name differ and
    lead to the same position; after GET /users/:id and POST /users/:name
    one entry holds both handlers under the text /users/:id and the name
    id, and a match reports that text and no value for the name "name". *)
Lemma differing_patterns_share_an_entry :
  "/users/:id" <> "/users/:name" /\
  patternPos "/users/:id" = patternPos "/users/:name" /\
  HandleAll NewMux renamedRoutes = Ret (build renamedRoutes) /\
  entryAt (root (build renamedRoutes)) (patternPos "/users/:name") =
    Some (MuxEntry "/users/:id" ["id"]
            (<["POST" := "byName"]> (<["GET" := "byId"]> ∅))
            ["OPTIONS"; "GET"; "HEAD"; "POST"]) /\
  Lookup (build renamedRoutes) "/users/7" =
    Ret (Some {| matchEntry :=
                   entryAt (root (build renamedRoutes)) (patternPos "/users/:name");
                 values := ["7"] |}) /\
  Param {| matchEntry :=
             entryAt (root (build renamedRoutes)) (patternPos "/users/:name");
           values := ["7"] |} "name" = Ret "".
Proof. split; [done|]. repeat split; vm_compute; reflexivity. Qed.

Lemma one_entry_per_tree_position_witness :
  (pattern <$> entryAt (root (build fileRoutes)) (patternPos "/files/:id"))
    = Some "/files/:id" /\
  entryAt (root (build fileRoutes)) ["files"] = None.
Proof.
  destruct (one_entry_per_tree_position NewMux (build fileRoutes)
              (Methods ["GET"]) "/files/:id" "file") as ((e' & He' & Hnew) & Hrest & _).
  - constructor.
  - vm_compute. reflexivity.
  - split.
    + rewrite He'. cbn [fmap option_fmap option_map].
      replace (entryAt (root NewMux) (patternPos "/files/:id"))
        with (@None (muxEntry string)) in Hnew by (vm_compute; reflexivity).
      destruct Hnew as [-> _]. reflexivity.
    + rewrite Hrest; [vm_compute; reflexivity|].
      vm_compute. discriminate.
Defined.

(** ** Method not allowed *)

(** C4.  The code at a matching path with an unbound method: with GET
    /users registered, a DELETE request for /users and a DELETE request for
    the unregistered /nope get the same error from [ServeHTTPErr], the
    request context never receives the match, and the default error handler
    answers both with the same 404 response, without an Allow header; the
    entry's method set is OPTIONS, GET, HEAD. *)
Theorem method_not_allowed_is_answered_as_not_found :
  HandleAll NewMux listRoutes = Ret (build listRoutes) /\
  Lookup (build listRoutes) "/users" =
    Ret (Some {| matchEntry := entryAt (root (build listRoutes)) ["users"];
                 values := [] |}) /\
  (methods <$> entryAt (root (build listRoutes)) ["users"])
    = Some ["OPTIONS"; "GET"; "HEAD"] /\
  Lookup (build listRoutes) "/nope" = Ret None /\
  ServeHTTPErr testServe (build listRoutes) freshMatch freshWriter
    {| Method := "DELETE"; URLPath := "/users"; ctxMatch := None |}
    = Ret (freshWriter, Some ErrMuxNotFound) /\
  ServeHTTPErr testServe (build listRoutes) freshMatch freshWriter
    {| Method := "DELETE"; URLPath := "/nope"; ctxMatch := None |}
    = Ret (freshWriter, Some ErrMuxNotFound) /\
  ServeHTTP testServe (build listRoutes) freshMatch freshWriter
    {| Method := "DELETE"; URLPath := "/users"; ctxMatch := None |}
    = Ret (writeError freshWriter StatusNotFound) /\
  ServeHTTP testServe (build listRoutes) freshMatch freshWriter
    {| Method := "DELETE"; URLPath := "/nope"; ctxMatch := None |}
    = Ret (writeError freshWriter StatusNotFound) /\
  status (writeError freshWriter StatusNotFound) = Some 404%Z /\
  filter (fun kv => kv.1 = "Allow") (header (writeError freshWriter StatusNotFound))
    = [].
Proof. repeat split; vm_compute; reflexivity. Qed.


Lemma HandleMethods_panics_exactly_on_bad_input_witness :
  (exists msg, HandleMethods (build listRoutes) ["GET"] "users" (Some "again")
                 = Panic msg) /\
  (exists mux', HandleMethods (build listRoutes) ["POST"] "users" (Some "create")
                  = Ret mux').
Proof.
  split.
  - apply (proj1 (HandleMethods_panics_exactly_on_bad_input
                    (build listRoutes) ["GET"] "users" (Some "again"))).
    do 3 right. exists 0, "GET". split; [reflexivity|].
    left. vm_compute. eexists. reflexivity.
  - apply (proj2 (HandleMethods_panics_exactly_on_bad_input
                    (build listRoutes) ["POST"] "users" (Some "create"))).
    intros [H|[H|[H|H]]]; try discriminate H.
    apply boundAlready_iff in H. apply H. split.
    + apply NoDup_singleton.
    + intros m Hm. apply list_elem_of_singleton in Hm as ->.
      vm_compute. reflexivity.
Defined.

(** * Further properties of the code *)

#[local] Set Warnings "-clear-no-such-hyp".

(** ** The method set *)

Lemma Contains_elem_of (s : list string) (m : string) :
  Contains s m = true <-> m ∈ s.
Proof.
  unfold Contains. rewrite existsb_exists. split.
  - intros (x & Hx & Heq). apply String.eqb_eq in Heq as ->.
    by apply list_elem_of_In.
  - intros Hm. exists m. split; [by apply list_elem_of_In|apply String.eqb_refl].
Qed.

Lemma Contains_false_not_elem_of (s : list string) (m : string) :
  Contains s m = false <-> m ∉ s.
Proof.
  rewrite <- Contains_elem_of. by destruct (Contains s m).
Qed.

Lemma Methods_fold (l : list string) : forall acc,
  NoDup acc ->
  NoDup (fold_left (fun s m => if Contains s m then s else s ++ [m]) l acc) /\
  (forall m, m ∈ fold_left (fun s m => if Contains s m then s else s ++ [m]) l acc
             <-> m ∈ acc \/ m ∈ l) /\
  (NoDup (acc ++ l) ->
     fold_left (fun s m => if Contains s m then s else s ++ [m]) l acc = acc ++ l).
Proof.
  induction l as [|x l IH]; intros acc Hacc; cbn [fold_left].
  { split; [done|]. split; [|by rewrite app_nil_r].
    intros m. rewrite elem_of_nil. tauto. }
  destruct (Contains acc x) eqn:Hx.
  - apply Contains_elem_of in Hx.
    destruct (IH acc Hacc) as (Hnd & Hel & Hid). split; [done|]. split.
    + intros m. rewrite Hel, elem_of_cons. split; [tauto|].
      intros [?|[->|?]]; auto.
    + intros Hall. apply NoDup_app in Hall as (_ & Hdisj & _).
      destruct (Hdisj x Hx). apply elem_of_cons. by left.
  - apply Contains_false_not_elem_of in Hx.
    assert (NoDup (acc ++ [x])) as Hacc'.
    { apply NoDup_app. split; [done|]. split; [|apply NoDup_singleton].
      intros y Hy ->%list_elem_of_singleton. done. }
    destruct (IH (acc ++ [x]) Hacc') as (Hnd & Hel & Hid). split; [done|]. split.
    + intros m. rewrite Hel, elem_of_app, list_elem_of_singleton, elem_of_cons.
      tauto.
    + intros Hall.
      assert (acc ++ x :: l = (acc ++ [x]) ++ l) as Heq by (by rewrite <- app_assoc).
      rewrite Heq in Hall |- *. by apply Hid.
Qed.

(** X1.  [Methods] keeps set semantics: the result has no duplicate, holds exactly
    the given methods, is the given list itself when that has no duplicate
    (the first occurrences stay in place), and building a set from a set
    changes nothing. *)
Theorem Methods_is_duplicate_free (l : list string) :
  NoDup (Methods l) /\
  (forall m, m ∈ Methods l <-> m ∈ l) /\
  Methods (Methods l) = Methods l /\
  Methods (l ++ l) = Methods l.
Proof.
  destruct (Methods_fold l [] (NoDup_nil_2)) as (Hnd & Hel & _).
  split; [done|]. split.
  { intros m. unfold Methods. rewrite Hel, elem_of_nil. tauto. }
  split.
  - destruct (Methods_fold (Methods l) [] (NoDup_nil_2)) as (_ & _ & Hid).
    by apply Hid.
  - unfold Methods. rewrite fold_left_app. fold (Methods l).
    assert (forall k acc, (forall m, m ∈ k -> m ∈ acc) ->
      fold_left (fun s m => if Contains s m then s else s ++ [m]) k acc = acc)
      as Hsub.
    { induction k as [|x k IHk]; intros acc Hin; [done|]. cbn [fold_left].
      assert (Contains acc x = true) as ->.
      { apply Contains_elem_of, Hin, elem_of_cons. by left. }
      apply IHk. intros m Hm. apply Hin, elem_of_cons. by right. }
    apply Hsub. intros m Hm. unfold Methods. rewrite Hel. by right.
Qed.

(** X2.  [Add] and [Has]: after [Add] the method is a member, every other
    membership is as before, a set stays a set, and adding a member changes
    nothing. *)
Theorem Add_keeps_a_set (s : MethodSet) (method : string) :
  NoDup s ->
  NoDup (MethodSet.Add s method) /\
  MethodSet.Has (MethodSet.Add s method) method = true /\
  (forall x, MethodSet.Has (MethodSet.Add s method) x
             = MethodSet.Has s x || String.eqb x method) /\
  MethodSet.Add (MethodSet.Add s method) method = MethodSet.Add s method /\
  length s <= length (MethodSet.Add s method) <= S (length s).
Proof.
  intros Hnd. unfold MethodSet.Add, MethodSet.Has.
  destruct (Contains s method) eqn:Hc.
  - rewrite Hc. split; [done|]. split; [done|]. split; [|split; [done|lia]].
    intros x. destruct (String.eqb_spec x method) as [->|Hne].
    + rewrite Hc. done.
    + by rewrite orb_false_r.
  - assert (Contains (s ++ [method]) method = true) as Hc'.
    { apply Contains_elem_of, elem_of_app. right. by apply list_elem_of_singleton. }
    rewrite Hc'. split.
    { apply NoDup_app. split; [done|]. split; [|apply NoDup_singleton].
      intros y Hy ->%list_elem_of_singleton.
      by apply Contains_false_not_elem_of in Hc. }
    split; [done|]. split; [|split; [done|rewrite length_app; cbn; lia]].
    intros x. unfold Contains. rewrite existsb_app. cbn. by rewrite orb_false_r.
Qed.

Lemma Add_keeps_a_set_witness :
  NoDup (MethodSet.Add ["OPTIONS"; "GET"] "HEAD") /\
  MethodSet.Has (MethodSet.Add ["OPTIONS"; "GET"] "HEAD") "HEAD" = true.
Proof.
  destruct (Add_keeps_a_set ["OPTIONS"; "GET"] "HEAD") as (H1 & H2 & _).
  - apply (bool_decide_unpack _). vm_compute. exact I.
  - split; [exact H1|exact H2].
Defined.

(** ** Splitting a path loses nothing *)

Lemma segHead_segTail s : segHead s +:+ segTail s = s.
Proof.
  induction s as [|b s IH]; [done|]. cbn [segHead segTail].
  destruct (Ascii.eqb b "/"); [done|].
  change (String b (segHead s +:+ segTail s) = String b s). by rewrite IH.
Qed.

Lemma segHead_no_separator s : IndexByte (segHead s) "/" = (-1)%Z.
Proof.
  induction s as [|b s IH]; [done|]. cbn.
  destruct (Ascii.eqb b "/") eqn:Hb; [done|]. cbn. by rewrite Hb, IH.
Qed.

Lemma segTail_shape s : segTail s = "" \/ exists t, segTail s = String "/" t.
Proof.
  induction s as [|b s IH]; [by left|]. cbn.
  destruct (Ascii.eqb_spec b "/") as [->|Hb]; [right; by eexists|done].
Qed.

Lemma Join_cons_char b h t :
  Join (String b h :: t) "/" = String b (Join (h :: t) "/").
Proof. by destruct t. Qed.

Lemma Join_splitOn s : Join (splitOn s) "/" = s.
Proof.
  induction s as [|b s IH]; [done|]. cbn [splitOn].
  destruct (splitOn s) as [|h t] eqn:Hs.
  { by rewrite splitOn_unfold in Hs. }
  destruct (Ascii.eqb_spec b "/") as [->|Hb].
  - change (Join ("" :: h :: t) "/") with ("" +:+ "/" +:+ Join (h :: t) "/").
    by rewrite IH.
  - by rewrite Join_cons_char, IH.
Qed.

Lemma splitOn_no_separator s :
  Forall (fun seg => IndexByte seg "/" = (-1)%Z) (splitOn s).
Proof.
  induction s as [|b s IH]; cbn [splitOn]; [by repeat constructor|].
  destruct (Ascii.eqb b "/") eqn:Hb; [by constructor|].
  destruct (splitOn s) as [|h t]; [by repeat constructor; cbn; rewrite Hb|].
  apply Forall_cons in IH as [Hh Ht]. constructor; [|done].
  cbn. by rewrite Hb, Hh.
Qed.

(** X3.  [shiftPath] on a non-empty path never panics and cuts the path without
    losing a byte: the first byte, the head and the tail put together are
    the path again, the head holds no separator, the tail is empty or begins
    with a separator, and the tail is shorter than the path. *)
Theorem shiftPath_cuts_without_loss (c : ascii) (s : string) :
  exists head tail,
    shiftPath (String c s) = Ret (head, tail) /\
    String c (head +:+ tail) = String c s /\
    IndexByte head "/" = (-1)%Z /\
    (tail = "" \/ exists t, tail = String "/" t) /\
    String.length tail < String.length (String c s).
Proof.
  exists (segHead s), (segTail s). split; [apply shiftPath_cons|].
  split; [by rewrite segHead_segTail|]. split; [apply segHead_no_separator|].
  split; [apply segTail_shape|]. pose proof (segTail_length s). cbn. lia.
Qed.

(** X4.  The loop over [shiftPath] that registration and lookup run on a cleaned
    path returns, and its segments joined by separators behind a leading
    separator are the cleaned path again; no segment holds a separator. *)
Theorem segments_join_back_to_the_path (p : string) :
  exists segs,
    shiftAll (String.length (cleanPath p)) (cleanPath p) = Ret segs /\
    "/" +:+ Join segs "/" = cleanPath p /\
    Forall (fun seg => IndexByte seg "/" = (-1)%Z) segs /\
    segs <> [].
Proof.
  exists (pathSegs (cleanPath p)). split; [by apply shiftAll_pathSegs|].
  split; [|split; [|apply pathSegs_cleanPath_nonempty]].
  - destruct p as [|b p]; [done|]. unfold cleanPath.
    destruct (Ascii.eqb_spec b "/") as [->|Hb].
    + cbn [pathSegs]. by rewrite Join_splitOn.
    + change ("/" +:+ String b p) with (String "/" (String b p)).
      cbn [pathSegs]. by rewrite Join_splitOn.
  - destruct p as [|b p]; [by repeat constructor|]. unfold cleanPath.
    destruct (Ascii.eqb b "/"); apply splitOn_no_separator.
Qed.

(** ** What a registration binds, and what it leaves alone *)

Section BindingFacts.
Context {Handler : Type}.
Implicit Types (mux : ServeMux Handler) (e : muxEntry Handler).
Implicit Types (h : Handler) (ms : list string).

Lemma Add_elem_of (s : MethodSet) (method x : string) :
  x ∈ MethodSet.Add s method <-> x ∈ s \/ x = method.
Proof.
  unfold MethodSet.Add. destruct (Contains s method) eqn:Hc.
  - apply Contains_elem_of in Hc. split; [auto|]. by intros [?| ->].
  - rewrite elem_of_app, list_elem_of_singleton. done.
Qed.

Lemma Add_NoDup (s : MethodSet) (method : string) :
  NoDup s -> NoDup (MethodSet.Add s method).
Proof.
  intros Hnd. unfold MethodSet.Add. destruct (Contains s method) eqn:Hc; [done|].
  apply Contains_false_not_elem_of in Hc.
  apply NoDup_app. split; [done|]. split; [|apply NoDup_singleton].
  by intros y Hy ->%list_elem_of_singleton.
Qed.

Lemma setHandler_cacheOk e method h e' :
  cacheOk e -> setHandler e method h = Ret e' -> cacheOk e'.
Proof.
  intros [Hnd Hmem] Hset. unfold setHandler in Hset.
  destruct (handlers e !! method) eqn:Hfree; [done|]. injection Hset as <-.
  unfold MethodSet.Has.
  assert (forall m, is_Some (<[method:=h]> (handlers e) !! m)
                    <-> m = method \/ is_Some (handlers e !! m)) as Hins.
  { intros m. rewrite lookup_insert_is_Some.
    destruct (decide (method = m)) as [->|Hne]; [split; auto|].
    split; [intros [?|[_ ?]]; auto; congruence|intros [?|?]; auto; congruence]. }
  destruct (String.eqb_spec method MethodGet) as [->|Hget]; cbn [andb].
  - destruct (Contains (MethodSet.Add (methods e) MethodGet) MethodHead) eqn:Hc;
      cbn [negb].
    + apply Contains_elem_of in Hc. split; [by apply Add_NoDup|]. cbn.
      apply Add_elem_of in Hc. rewrite Hmem in Hc.
      intros m. rewrite Add_elem_of, Hmem, !Hins. naive_solver.
    + split; [by do 2 apply Add_NoDup|]. cbn.
      intros m. rewrite !Add_elem_of, Hmem, !Hins. naive_solver.
  - split; [by apply Add_NoDup|]. cbn.
    intros m. rewrite Add_elem_of, Hmem, !Hins. naive_solver.
Qed.

Lemma setHandlers_cacheOk ms : forall e h e',
  cacheOk e -> setHandlers e ms h = Ret e' -> cacheOk e'.
Proof.
  induction ms as [|m ms IH]; intros e h e' Hok Hset.
  { by injection Hset as <-. }
  cbn [setHandlers] in Hset.
  destruct (setHandler e m h) as [e1| |] eqn:H1; try done.
  eapply IH; [|exact Hset]. by eapply setHandler_cacheOk.
Qed.

Lemma setHandlers_handlers ms : forall e h e',
  setHandlers e ms h = Ret e' ->
  (forall m, m ∈ ms -> handlers e !! m = None /\ handlers e' !! m = Some h) /\
  (forall m, m ∉ ms -> handlers e' !! m = handlers e !! m) /\
  (forall m, m ∈ methods e -> m ∈ methods e').
Proof.
  induction ms as [|x ms IH]; intros e h e' Hset.
  { injection Hset as <-. split; [|done]. intros m Hm. by apply elem_of_nil in Hm. }
  cbn [setHandlers] in Hset.
  destruct (setHandler e x h) as [e1| |] eqn:H1; try done. cbn in Hset.
  destruct (IH _ _ _ Hset) as (Hin & Hout & Hms).
  assert (forall m, m ∈ methods e -> m ∈ methods e1) as Hgrow.
  { intros m Hm. unfold setHandler in H1.
    destruct (handlers e !! x); [done|]. injection H1 as <-. cbn.
    destruct (_ && _); rewrite ?Add_elem_of; auto. }
  apply setHandler_Ret in H1 as (Hfree & _ & _ & Hhs).
  split; [|split].
  - intros m [->|Hm]%elem_of_cons.
    + split; [done|]. destruct (decide (x ∈ ms)) as [Hx|Hx].
      * by apply Hin.
      * rewrite Hout, Hhs by done. apply lookup_insert_eq.
    + destruct (Hin m Hm) as [Hnone Hsome]. split; [|done].
      rewrite Hhs in Hnone. destruct (decide (x = m)) as [->|Hne].
      * by rewrite lookup_insert_eq in Hnone.
      * by rewrite lookup_insert_ne in Hnone.
  - intros m [Hne Hm]%not_elem_of_cons.
    rewrite Hout, Hhs by done. by rewrite lookup_insert_ne.
  - auto.
Qed.

Lemma cacheOk_fresh (pat : string) (ps : list string) :
  cacheOk (MuxEntry pat ps (∅ : gmap string Handler) (Methods [MethodOptions])).
Proof.
  split; cbn.
  - apply NoDup_singleton.
  - intros m. change (Methods [MethodOptions]) with [MethodOptions].
    rewrite list_elem_of_singleton, !lookup_empty.
    split; [auto|]. intros [?|[[? ?]|[_ [? ?]]]]; done.
Qed.

(** X5.  In a multiplexer built by registrations every entry answers exactly
    OPTIONS, the methods that have a handler, and HEAD when GET has one;
    the cached method set has no duplicate; and at least one handler is
    bound. *)
Theorem entry_methods_follow_its_handlers mux (ks : list string) e :
  reachable mux -> entryAt (root mux) ks = Some e ->
  NoDup (methods e) /\
  (forall m, m ∈ methods e <->
     m = MethodOptions \/ is_Some (handlers e !! m) \/
     (m = MethodHead /\ is_Some (handlers e !! MethodGet))) /\
  exists m, is_Some (handlers e !! m).
Proof.
  intros Hr. revert ks e.
  induction Hr as [|mux ms pat h mux' _ IH Hreg]; intros ks e He.
  { cbn in He. by rewrite entryAt_emptyNode in He. }
  assert (exists m0, m0 ∈ ms) as [m0 Hm0].
  { unfold HandleMethods in Hreg. destruct ms as [|m0 ms]; [done|].
    exists m0. apply elem_of_cons. by left. }
  apply HandleMethods_Ret_inv in Hreg as (e' & Hset & Hroot & _).
  rewrite Hroot in He.
  destruct (decide (ks = patternPos pat)) as [->|Hne].
  - rewrite entryAt_setEntryAt_eq in He. injection He as <-.
    assert (cacheOk (entryFor mux pat)) as Hok.
    { unfold entryFor.
      destruct (entryAt (root mux) (patternPos pat)) as [e0|] eqn:He0; cbn.
      - destruct (IH _ _ He0) as (? & ? & _). by split.
      - apply cacheOk_fresh. }
    destruct (setHandlers_cacheOk _ _ _ _ Hok Hset) as [Hnd Hmem].
    split; [done|]. split; [done|]. exists m0.
    destruct (setHandlers_handlers _ _ _ _ Hset) as (Hin & _ & _).
    destruct (Hin m0 Hm0) as [_ ->]. by eexists.
  - rewrite entryAt_setEntryAt_ne in He by done. by apply (IH ks).
Qed.

(** X6.  A successful registration binds the handler to each given method at
    the pattern's position; none of those methods had a handler there
    before, and every other method keeps the handler it had, or none. *)
Theorem HandleMethods_binds_the_given_methods mux ms (pat : string) h mux' :
  HandleMethods mux ms pat (Some h) = Ret mux' ->
  exists e',
    entryAt (root mux') (patternPos pat) = Some e' /\
    (forall m, m ∈ ms ->
       handlers (entryFor mux pat) !! m = None /\ handlers e' !! m = Some h) /\
    (forall m, m ∉ ms ->
       handlers e' !! m = handlers (entryFor mux pat) !! m).
Proof.
  intros Hreg. apply HandleMethods_Ret_inv in Hreg as (e' & Hset & Hroot & _).
  exists e'. rewrite Hroot, entryAt_setEntryAt_eq. split; [done|].
  destruct (setHandlers_handlers _ _ _ _ Hset) as (Hin & Hout & _). done.
Qed.

(** X7.  A registration never removes or rewrites what is registered: every
    entry is still at its position afterwards, with its pattern text and
    parameter names, every handler it had and every method it answered. *)
Theorem registration_keeps_every_entry mux ms (pat : string) h mux'
    (ks : list string) e :
  HandleMethods mux ms pat (Some h) = Ret mux' ->
  entryAt (root mux) ks = Some e ->
  exists e',
    entryAt (root mux') ks = Some e' /\
    pattern e' = pattern e /\ params e' = params e /\
    (forall m h0, handlers e !! m = Some h0 -> handlers e' !! m = Some h0) /\
    (forall m, m ∈ methods e -> m ∈ methods e').
Proof.
  intros Hreg He. apply HandleMethods_Ret_inv in Hreg as (e' & Hset & Hroot & _).
  rewrite Hroot. destruct (decide (ks = patternPos pat)) as [->|Hne].
  - exists e'. rewrite entryAt_setEntryAt_eq. split; [done|].
    unfold entryFor in Hset. rewrite He in Hset. cbn in Hset.
    destruct (setHandlers_Ret_inv _ _ _ _ Hset) as [Hp Hps].
    destruct (setHandlers_handlers _ _ _ _ Hset) as (Hin & Hout & Hms).
    repeat split; try done.
    intros m h0 Hm. destruct (decide (m ∈ ms)) as [Hmem|Hmem].
    + destruct (Hin m Hmem) as [Hnone _]. congruence.
    + by rewrite Hout.
  - exists e. rewrite entryAt_setEntryAt_ne by done. done.
Qed.
End BindingFacts.

(** ** What lookup finds and captures *)

Section LookupMore.
Context {Handler : Type}.
Implicit Types (mux : ServeMux Handler) (n current : node Handler).
Implicit Types (e : muxEntry Handler) (m : MuxMatch Handler).

Lemma patternKeys_literal (segs : list string) :
  patternNames segs = [] -> patternKeys segs = segs.
Proof.
  unfold patternNames, patternKeys.
  induction segs as [|s segs IH]; [done|]. cbn [omap list_omap map].
  destruct (placeholder s); [done|]. intros Hn. f_equal. by apply IH.
Qed.

(** Following the keys of an entry's position, segment for segment, reaches
    that entry and captures nothing. *)
Lemma specWalk_along_keys (ks : list string) : forall n e,
  ks <> [] -> entryAt n ks = Some e ->
  exists ns, specWalk ks n = Some (ns, []) /\ deepestEntry ns = Some e.
Proof.
  induction ks as [|k ks IH]; intros n e Hne He; [done|].
  cbn [entryAt specWalk] in *.
  destruct (children n !! k) as [c|]; [|done].
  destruct ks as [|k' ks'].
  - exists [c]. split; [done|]. rewrite deepestEntry_cons. cbn in He. by rewrite He.
  - destruct (IH c e) as (ns & Hw & Hd); [done|done|].
    exists (c :: ns). rewrite Hw. split; [done|].
    by rewrite deepestEntry_cons, Hd.
Qed.

(** X8.  A pattern without placeholder is found by the path that spells it: when
    an entry sits at the position of such a pattern, [Lookup] of the
    pattern text returns that entry with no captured value, whatever else
    the tree holds. *)
Theorem Lookup_finds_literal_pattern mux (pat : string) e :
  patternParams pat = [] ->
  entryAt (root mux) (patternPos pat) = Some e ->
  Lookup mux pat = Ret (Some {| matchEntry := Some e; values := [] |}).
Proof.
  unfold patternParams, patternPos. intros Hlit He.
  rewrite (patternKeys_literal _ Hlit) in He.
  destruct (specWalk_along_keys _ _ _ (pathSegs_cleanPath_nonempty pat) He)
    as (ns & Hw & Hd).
  unfold Lookup, lookup. rewrite lookupLoop_specWalk by done.
  by rewrite Hw, Hd.
Qed.

(** X9.  [lookup] always returns, and adds the captured values behind those the
    match it is given already holds: its result is the result of [Lookup]
    with the held values put in front. *)
Theorem lookup_appends_to_held_values mux (path : string) m :
  exists r,
    Lookup mux path = Ret r /\
    lookup mux path m = Ret (prependValues (values m) <$> r).
Proof.
  unfold Lookup, lookup. rewrite !lookupLoop_specWalk by done. cbn [values].
  eexists. split; [reflexivity|].
  destruct (specWalk _ _) as [[ns vs]|]; [|done].
  destruct (deepestEntry ns); done.
Qed.

Lemma paramScan_absent (names : list string) : forall i name vs,
  name ∉ names -> paramScan names i name vs = Ret "".
Proof.
  induction names as [|k names IH]; intros i name vs Hn; [done|].
  apply not_elem_of_cons in Hn as [Hne Hn]. cbn [paramScan].
  destruct (String.eqb_spec k name) as [->|_]; [done|]. by apply IH.
Qed.

Lemma paramScan_first (pre : list string) : forall post i name vs,
  name ∉ pre ->
  paramScan (pre ++ name :: post) i name vs =
    match vs !! (i + length pre) with
    | Some v => Ret v
    | None => Panic "index out of range"
    end.
Proof.
  induction pre as [|k pre IH]; intros post i name vs Hn.
  - cbn. rewrite String.eqb_refl, Nat.add_0_r. done.
  - apply not_elem_of_cons in Hn as [Hne Hn]. cbn [app paramScan].
    destruct (String.eqb_spec k name) as [->|_]; [done|].
    rewrite IH by done. cbn [length].
    by replace (S i + length pre) with (i + S (length pre)) by lia.
Qed.

(** X10.  [Param] reads the value at the index of the first parameter of that
    name: the empty string when no parameter has the name, the value at
    that index when there is one, and an index-out-of-range panic when the
    match holds fewer values. *)
Theorem Param_reads_at_first_occurrence m e (name : string) :
  matchEntry m = Some e ->
  (name ∉ params e -> Param m name = Ret "") /\
  (forall pre post, params e = pre ++ name :: post -> name ∉ pre ->
     Param m name = match values m !! length pre with
                    | Some v => Ret v
                    | None => Panic "index out of range"
                    end).
Proof.
  intros He. unfold Param. rewrite He. split.
  - apply paramScan_absent.
  - intros pre post -> Hn. by rewrite paramScan_first.
Qed.
End LookupMore.

Lemma Lookup_finds_literal_pattern_witness :
  Lookup (build usersRoutes) "/users/new" =
    Ret (Some {| matchEntry :=
                   Some (MuxEntry "/users/new" [] (<["GET" := "new"]> ∅)
                           ["OPTIONS"; "GET"; "HEAD"]);
                 values := [] |}).
Proof.
  apply (Lookup_finds_literal_pattern (build usersRoutes) "/users/new").
  - vm_compute. reflexivity.
  - vm_compute. reflexivity.
Defined.

Lemma Param_reads_at_first_occurrence_witness :
  Param {| matchEntry := Some (MuxEntry "/a/:x/:y" ["x"; "y"] (∅ : gmap string string) []);
           values := ["1"] |} "y" = Panic "index out of range" /\
  Param {| matchEntry := Some (MuxEntry "/a/:x/:y" ["x"; "y"] (∅ : gmap string string) []);
           values := ["1"] |} "z" = Ret "".
Proof.
  destruct (Param_reads_at_first_occurrence
              {| matchEntry := Some (MuxEntry "/a/:x/:y" ["x"; "y"]
                                       (∅ : gmap string string) []);
                 values := ["1"] |}
              (MuxEntry "/a/:x/:y" ["x"; "y"] (∅ : gmap string string) [])
              "y" eq_refl) as [_ Hy].
  destruct (Param_reads_at_first_occurrence
              {| matchEntry := Some (MuxEntry "/a/:x/:y" ["x"; "y"]
                                       (∅ : gmap string string) []);
                 values := ["1"] |}
              (MuxEntry "/a/:x/:y" ["x"; "y"] (∅ : gmap string string) [])
              "z" eq_refl) as [Hz _].
  split.
  - rewrite (Hy ["x"] [] eq_refl); [reflexivity|].
    apply (bool_decide_unpack _). vm_compute. exact I.
  - apply Hz. apply (bool_decide_unpack _). vm_compute. exact I.
Defined.

Lemma captured_take (psegs : list string) : forall n segs,
  length psegs <= n -> captured psegs (take n segs) = captured psegs segs.
Proof.
  induction psegs as [|p psegs IH]; intros n segs Hn; [by destruct (take n segs)|].
  destruct n as [|n]; [cbn in Hn; lia|]. destruct segs as [|s segs]; [done|].
  cbn [take captured]. cbn in Hn. rewrite IH by lia. done.
Qed.

Lemma firstBinding_app (names : list string) : forall vs1 vs2 name,
  length names <= length vs1 ->
  firstBinding names (vs1 ++ vs2) name = firstBinding names vs1 name.
Proof.
  induction names as [|k names IH]; intros vs1 vs2 name Hlen; [done|].
  destruct vs1 as [|v vs1]; [cbn in Hlen; lia|]. cbn [app firstBinding].
  destruct (String.eqb k name); [done|]. apply IH. cbn in Hlen. lia.
Qed.

(** X11.  On a multiplexer built by registrations and a path none of whose
    segments is the text "*", the values of a match begin with the path
    segments that stand where the matched pattern has its placeholders, one
    per parameter name; values captured below the matched entry follow
    them.  [Param] therefore never panics there and returns, for every
    name, the segment at the first placeholder of that name. *)
Theorem Param_is_safe_on_star_free_paths
    {Handler : Type} (mux : ServeMux Handler) (path : string)
    (m : MuxMatch Handler) (e : muxEntry Handler) :
  reachable mux ->
  Lookup mux path = Ret (Some m) ->
  matchEntry m = Some e ->
  "*" ∉ specSegments path ->
  exists extra,
    values m =
      captured (specSegments (pattern e)) (specSegments path) ++ extra /\
    length (captured (specSegments (pattern e)) (specSegments path))
      = length (params e) /\
    forall name,
      Param m name =
        Ret (firstBinding (params e)
               (captured (specSegments (pattern e)) (specSegments path)) name).
Proof.
  intros Hr Hl He Hstar.
  assert (Forall (fun s => s <> "*") (specSegments path)) as Hsegs.
  { apply Forall_forall. intros s Hs ->. done. }
  destruct (Lookup_entry_position mux path m e Hr Hl He)
    as (ns & d & Hwalk & Hd & Hat).
  destruct (specWalk_walkKeys _ _ _ _ Hwalk) as (Hklen & _ & Hvs).
  destruct (reachable_entriesOk mux Hr _ _ Hat) as [Hpos Hps].
  cbn [app] in Hpos. unfold patternPos, patternParams in *.
  rewrite pathSegs_cleanPath in Hpos, Hps.
  set (segs := specSegments path) in *.
  set (psegs := specSegments (pattern e)) in *.
  set (ks := walkKeys segs (root mux)) in *.
  assert (length psegs = S d) as Hplen.
  { apply (f_equal length) in Hpos.
    unfold patternKeys in Hpos. rewrite length_map, length_take in Hpos. lia. }
  assert (captured psegs segs
          = (filter (fun kv => kv.1 = "*") (zip (take (S d) ks) (take (S d) segs))).*2)
    as Hcap.
  { rewrite <- (captured_take psegs (S d) segs) by lia.
    rewrite patternKeys_captured by (by apply Forall_take). by rewrite Hpos. }
  assert (length (captured psegs segs) = length (params e)) as Hcount.
  { rewrite <- (captured_take psegs (S d) segs) by lia.
    rewrite Hps. apply captured_length. rewrite length_take. lia. }
  exists ((filter (fun kv => kv.1 = "*")
             (zip (drop (S d) ks) (drop (S d) segs))).*2).
  assert (values m = captured psegs segs ++
            (filter (fun kv => kv.1 = "*")
               (zip (drop (S d) ks) (drop (S d) segs))).*2) as Hvals.
  { assert (zip ks segs = zip (take (S d) ks) (take (S d) segs)
                            ++ zip (drop (S d) ks) (drop (S d) segs)) as Hzip.
    { rewrite <- zip_with_app by (rewrite !length_take; lia).
      by rewrite !take_drop. }
    by rewrite (Hvs Hsegs), Hcap, Hzip, filter_app, fmap_app. }
  split; [done|]. split; [done|].
  intros name. unfold Param. rewrite He.
  rewrite paramScan_firstBinding by (rewrite Hvals, length_app; lia).
  rewrite drop_0, Hvals. apply f_equal, firstBinding_app. lia.
Qed.

Lemma Param_is_safe_on_star_free_paths_witness :
  Param {| matchEntry := entryAt (root (build nestedRoutes)) ["a"];
           values := ["1"] |} "x" = Ret "".
Proof.
  assert (exists e, entryAt (root (build nestedRoutes)) ["a"] = Some e /\
                    params e = []) as (e & He & Hps).
  { eexists. split; vm_compute; reflexivity. }
  destruct (Param_is_safe_on_star_free_paths (build nestedRoutes) "/a/1"
              {| matchEntry := entryAt (root (build nestedRoutes)) ["a"];
                 values := ["1"] |} e) as (extra & _ & _ & Hparam).
  - apply (build_reachable nestedRoutes). vm_compute. reflexivity.
  - vm_compute. reflexivity.
  - exact He.
  - apply (bool_decide_unpack _). vm_compute. exact I.
  - rewrite Hparam, Hps. reflexivity.
Defined.

(** ** Registration: duplicates and order *)

Section RegistrationMore.
Context {Handler : Type}.
Implicit Types (mux : ServeMux Handler) (n : node Handler).
Implicit Types (e : muxEntry Handler) (h : Handler) (ms : list string).

Lemma HandleMethods_Ret_nonempty mux ms (pat : string) h mux' :
  HandleMethods mux ms pat (Some h) = Ret mux' -> ms <> [] /\ pat <> "".
Proof.
  unfold HandleMethods. destruct ms; [done|]. by destruct pat.
Qed.

(** X13.  Registering a method a second time at a position panics, and the
    message names the method and the pattern text of the first
    registration at that position, not the pattern that was just given. *)
Theorem duplicate_registration_names_first_pattern
    mux (method pat : string) h e :
  pat <> "" ->
  entryAt (root mux) (patternPos pat) = Some e ->
  is_Some (handlers e !! method) ->
  Handle mux method pat (Some h) =
    Panic ("web: multiple registrations for " +:+ method +:+ " " +:+ pattern e).
Proof.
  intros Hpat He [h0 Hbound]. unfold Handle.
  change (Methods [method]) with [method].
  rewrite HandleMethods_setEntryAt by done.
  unfold entryFor. rewrite He. cbn. unfold setHandler. by rewrite Hbound.
Qed.

Lemma setEntryAt_comm (ks1 : list string) : forall ks2 n e1 e2,
  ks1 <> ks2 ->
  setEntryAt (setEntryAt n ks1 e1) ks2 e2 = setEntryAt (setEntryAt n ks2 e2) ks1 e1.
Proof.
  induction ks1 as [|k1 r1 IH]; intros [|k2 r2] n e1 e2 Hne; try done.
  cbn [setEntryAt entry children].
  destruct (decide (k1 = k2)) as [->|Hk].
  - rewrite !lookup_insert_eq, !insert_insert_eq. cbn [default from_option id].
    rewrite IH by congruence. done.
  - rewrite !lookup_insert_ne by congruence. f_equal.
    by apply insert_insert_ne.
Qed.

(** X14.  Two registrations at different positions of the tree can be made in
    either order: when they succeed one way they succeed the other way, and
    the resulting multiplexer is the same. *)
Theorem registrations_at_different_positions_commute
    mux ms1 (pat1 : string) h1 ms2 (pat2 : string) h2 mux1 mux12 :
  patternPos pat1 <> patternPos pat2 ->
  HandleMethods mux ms1 pat1 (Some h1) = Ret mux1 ->
  HandleMethods mux1 ms2 pat2 (Some h2) = Ret mux12 ->
  exists mux2,
    HandleMethods mux ms2 pat2 (Some h2) = Ret mux2 /\
    HandleMethods mux2 ms1 pat1 (Some h1) = Ret mux12.
Proof.
  intros Hpos H1 H2.
  destruct (HandleMethods_Ret_nonempty _ _ _ _ _ H1) as [Hms1 Hp1].
  destruct (HandleMethods_Ret_nonempty _ _ _ _ _ H2) as [Hms2 Hp2].
  apply HandleMethods_Ret_inv in H1 as (e1 & Hset1 & Hroot1 & Herr1).
  apply HandleMethods_Ret_inv in H2 as (e2 & Hset2 & Hroot2 & Herr2).
  assert (entryFor mux1 pat2 = entryFor mux pat2) as Hfor2.
  { unfold entryFor. rewrite Hroot1. by rewrite entryAt_setEntryAt_ne. }
  rewrite Hfor2 in Hset2.
  exists {| errHandler := errHandler mux;
            root := setEntryAt (root mux) (patternPos pat2) e2 |}.
  split.
  - rewrite HandleMethods_setEntryAt by done. by rewrite Hset2.
  - rewrite HandleMethods_setEntryAt by done.
    assert (entryFor {| errHandler := errHandler mux;
                        root := setEntryAt (root mux) (patternPos pat2) e2 |} pat1
            = entryFor mux pat1) as ->.
    { unfold entryFor. cbn [root]. by rewrite entryAt_setEntryAt_ne. }
    rewrite Hset1. cbn. f_equal. destruct mux12 as [eh rt]. cbn in *.
    subst eh rt. rewrite Herr1. f_equal. rewrite Hroot1.
    by apply setEntryAt_comm.
Qed.
End RegistrationMore.

Lemma duplicate_registration_names_first_pattern_witness :
  Handle (build renamedRoutes) "GET" "/users/:name" (Some "again") =
    Panic "web: multiple registrations for GET /users/:id".
Proof.
  assert (exists e, entryAt (root (build renamedRoutes)) (patternPos "/users/:name")
                      = Some e /\ pattern e = "/users/:id" /\
                    handlers e !! "GET" = Some "byId") as (e & He & Hp & Hh).
  { eexists. repeat split; vm_compute; reflexivity. }
  rewrite (duplicate_registration_names_first_pattern
             (build renamedRoutes) "GET" "/users/:name" "again" e).
  - rewrite Hp. reflexivity.
  - discriminate.
  - exact He.
  - rewrite Hh. eexists. reflexivity.
Defined.

Lemma registrations_at_different_positions_commute_witness :
  exists mux2 : ServeMux string,
    HandleMethods NewMux ["GET"] "/users/:id" (Some "show") = Ret mux2 /\
    HandleMethods mux2 ["GET"] "/users/new" (Some "new") = Ret (build usersRoutes).
Proof.
  apply (registrations_at_different_positions_commute
           NewMux ["GET"] "/users/new" "new" ["GET"] "/users/:id" "show"
           (build [("GET", "/users/new", "new")]) (build usersRoutes)).
  - vm_compute. discriminate.
  - vm_compute. reflexivity.
  - vm_compute. reflexivity.
Defined.

(** ** Witnesses of the binding properties *)

Lemma entry_methods_follow_its_handlers_witness :
  NoDup ["OPTIONS"; "GET"; "HEAD"] /\
  exists m, is_Some ((<["GET" := "list"]> (∅ : gmap string string)) !! m).
Proof.
  destruct (entry_methods_follow_its_handlers
              (build listRoutes) ["users"]
              (MuxEntry "/users" [] (<["GET" := "list"]> ∅) ["OPTIONS"; "GET"; "HEAD"])
              (build_reachable listRoutes (build listRoutes) eq_refl)
              eq_refl) as (Hnd & _ & Hbound).
  split; [exact Hnd|exact Hbound].
Defined.

Lemma HandleMethods_binds_the_given_methods_witness :
  exists e' : muxEntry string,
    entryAt (root (build listRoutes)) (patternPos "/users") = Some e' /\
    handlers e' !! "GET" = Some "list".
Proof.
  destruct (HandleMethods_binds_the_given_methods
              NewMux ["GET"] "/users" "list" (build listRoutes) eq_refl)
    as (e' & He' & Hin & _).
  exists e'. split; [exact He'|].
  apply Hin. apply elem_of_cons. by left.
Defined.

Lemma registration_keeps_every_entry_witness :
  exists e' : muxEntry string,
    entryAt (root (build usersRoutes)) ["users"; "new"] = Some e' /\
    pattern e' = "/users/new" /\ handlers e' !! "GET" = Some "new".
Proof.
  destruct (registration_keeps_every_entry
              (build [("GET", "/users/new", "new")]) ["GET"] "/users/:id" "show"
              (build usersRoutes) ["users"; "new"]
              (MuxEntry "/users/new" [] (<["GET" := "new"]> ∅)
                 ["OPTIONS"; "GET"; "HEAD"]) eq_refl eq_refl)
    as (e' & He' & Hp & _ & Hh & _).
  exists e'. split; [exact He'|]. split; [exact Hp|].
  apply Hh. reflexivity.
Defined.

(** ** A matched pattern agrees with the path *)

Section Soundness.
Context {Handler : Type}.
Implicit Types (mux : ServeMux Handler) (n : node Handler).

Lemma walkKeys_key (segs : list string) : forall n i k,
  walkKeys segs n !! i = Some k ->
  exists s, segs !! i = Some s /\ (k = s \/ k = "*").
Proof.
  induction segs as [|seg rest IH]; intros n i k Hk; [done|].
  cbn [walkKeys] in Hk.
  destruct (children n !! seg) as [next|].
  - destruct i as [|i]; cbn in Hk.
    + injection Hk as <-. exists seg. auto.
    + by apply (IH next).
  - destruct (children n !! "*") as [next|]; [|done].
    destruct i as [|i]; cbn in Hk.
    + injection Hk as <-. exists seg. auto.
    + by apply (IH next).
Qed.

(** X12.  On a multiplexer built by registrations, the pattern a match reports
    has no more segments than the path, and each of its literal segments is
    the path's segment at the same position. *)
Theorem matched_pattern_agrees_with_path
    mux (path : string) (m : MuxMatch Handler) (e : muxEntry Handler) :
  reachable mux ->
  Lookup mux path = Ret (Some m) ->
  matchEntry m = Some e ->
  length (specSegments (pattern e)) <= length (specSegments path) /\
  forall i p,
    specSegments (pattern e) !! i = Some p -> placeholder p = None ->
    specSegments path !! i = Some p.
Proof.
  intros Hr Hl He.
  destruct (Lookup_entry_position mux path m e Hr Hl He)
    as (ns & d & Hwalk & Hd & Hat).
  destruct (specWalk_walkKeys _ _ _ _ Hwalk) as (Hklen & _ & _).
  destruct (reachable_entriesOk mux Hr _ _ Hat) as [Hpos _].
  cbn [app] in Hpos. unfold patternPos in Hpos.
  rewrite pathSegs_cleanPath in Hpos. split.
  - apply (f_equal length) in Hpos. unfold patternKeys in Hpos.
    rewrite length_map, length_take in Hpos. lia.
  - intros i p Hi Hlit.
    assert (patternKeys (specSegments (pattern e)) !! i = Some p) as Hkey.
    { unfold patternKeys. change (map ?f ?l) with (f <$> l).
      rewrite list_lookup_fmap, Hi. cbn. by rewrite Hlit. }
    rewrite Hpos in Hkey. apply lookup_take_Some in Hkey as [Hkey _].
    destruct (walkKeys_key _ _ _ _ Hkey) as (s & Hs & [->| ->]); [done|].
    by cbn in Hlit.
Qed.
End Soundness.

Lemma matched_pattern_agrees_with_path_witness :
  length (specSegments "/users/:id") <= length (specSegments "/users/1") /\
  specSegments "/users/1" !! 0 = Some "users".
Proof.
  destruct (matched_pattern_agrees_with_path (build usersRoutes) "/users/1"
              {| matchEntry :=
                   Some (MuxEntry "/users/:id" ["id"] (<["GET" := "show"]> ∅)
                           ["OPTIONS"; "GET"; "HEAD"]);
                 values := ["1"] |}
              (MuxEntry "/users/:id" ["id"] (<["GET" := "show"]> ∅)
                 ["OPTIONS"; "GET"; "HEAD"])
              (build_reachable usersRoutes (build usersRoutes) eq_refl)
              eq_refl eq_refl) as [Hlen Hlit].
  split; [exact Hlen|]. apply (Hlit 0 "users"); reflexivity.
Defined.

(** ** Dispatch: unmatched paths and handler results *)

Section DispatchMore.
Context {Handler : Type}.
Context (serve : Handler -> ResponseWriter -> Request Handler ->
                 ResponseWriter * option error).
Implicit Types (mux : ServeMux Handler) (m pooled : MuxMatch Handler).
Implicit Types (e : muxEntry Handler) (w : ResponseWriter) (r : Request Handler).



End DispatchMore.


